(** * woodpantry-matching: the scoring engine

    A shallow embedding of the Go packages [clients], [service] and [api] of
    the matching service, and the properties of the coverage scorer, the
    ranking and filtering step, name resolution and the orchestrator.

    Conventions of the embedding:
    - Go [string] is [string]; Go [int] is [Z] (every count below is bounded
      by a slice length, so no arithmetic wraps); Go [float64] is the kernel's
      binary64 [float], with the IEEE operations of [PrimFloat];
    - Go [map[string]V] is [gmap string V]; indexing a missing key yields the
      zero value of [V];
    - a Go slice is a [list]; a slice that may be [nil] where the code tests
      for it is an [option (list _)];
    - a Go pair [(value, error)] is a [fetch]; an HTTP client is modelled by
      what its methods answer during one request. *)

From Stdlib Require Import ZArith Floats Uint63 Ascii String Permutation Sorted.
From stdpp Require Import gmap strings list fin_maps sorting.

Local Open Scope Z_scope.

(** ** Go primitives *)

Abbreviation float64 := float.

(** [len s] of a slice. *)
Definition len {A : Type} (s : list A) : Z := Z.of_nat (length s).

(** The conversion [float64(n)] of a non-negative [int] below [2^63]. *)
Definition float64_of_int (n : Z) : float64 := of_uint63 (Uint63.of_Z n).

(** [m[k]] on a [map[string]bool]: [false] when the key is missing. *)
Definition index_bool (m : gmap string bool) (k : string) : bool :=
  default false (m !! k).

(** [m[k]] on a map of slices: the [nil] slice when the key is missing. *)
Definition index_slice {A : Type} (m : gmap string (list A)) (k : string) : list A :=
  default [] (m !! k).

(** A Go result pair [(value, error)]: the value, or the error's message. *)
Inductive fetch (A : Type) : Type :=
| Fetched (a : A)
| Failed (err : string).
Arguments Fetched {A} a.
Arguments Failed {A} err.

(** [sort.Slice] of Go's library, by its insertion sort (the path the library
    takes on short slices): each element in turn moves left while it is
    [less] than its left neighbour.  The sorted prefix is kept reversed, its
    last element first.  The library gives no stability guarantee; the
    theorems below use only that the result is a permutation of the input,
    ordered by [less]. *)
Fixpoint insertLeft {A : Type} (less : A -> A -> bool) (x : A) (rprefix : list A) : list A :=
  match rprefix with
  | [] => [x]
  | y :: rest => if less x y then y :: insertLeft less x rest else x :: y :: rest
  end.

Definition sortSlice {A : Type} (less : A -> A -> bool) (s : list A) : list A :=
  rev (fold_left (fun rprefix x => insertLeft less x rprefix) s []).

(** ** Package clients *)

Module clients.

Module RecipeIngredient.
Record t : Type := mk {
  ID : string;
  IngredientID : string;
  Quantity : float64;
  Unit : string;
  IsOptional : bool
}.
End RecipeIngredient.

Module Recipe.
Record t : Type := mk {
  ID : string;
  Title : string;
  Tags : list string;
  PrepMinutes : Z;
  CookMinutes : Z;
  Ingredients : list RecipeIngredient.t
}.
End Recipe.

Module PantryItem.
Record t : Type := mk {
  ID : string;
  IngredientID : string;
  Quantity : float64;
  Unit : string
}.
End PantryItem.

Module IngredientDetail.
Record t : Type := mk {
  ID : string;
  Name : string
}.
End IngredientDetail.

Module IngredientSubstitute.
Record t : Type := mk {
  IngredientID : string;
  SubstituteID : string;
  Ratio : float64;
  Notes : string
}.
End IngredientSubstitute.

(** The three HTTP clients, each by the answers of its methods.  A [nil]
    answer without error ([GetIngredient] on 404, [GetSubstitutes] on 404 or
    405, or a JSON [null]) is [Fetched None]. *)
Record PantryClient : Type := {
  GetPantry : fetch (list PantryItem.t)
}.

Record RecipeClient : Type := {
  GetRecipes : fetch (list Recipe.t)
}.

Record DictionaryClient : Type := {
  GetIngredient : string -> fetch (option IngredientDetail.t);
  GetSubstitutes : string -> fetch (option (list IngredientSubstitute.t))
}.

End clients.

(** ** Package service *)

Module service.
Import clients.

Module MissingIngredient.
Record t : Type := mk {
  IngredientID : string;
  Name : string;
  Quantity : float64;
  Unit : string
}.
End MissingIngredient.

Module MatchResult.
Record t : Type := mk {
  Recipe : Recipe.t;
  CoveragePct : float64;
  MissingIngredients : list MissingIngredient.t;
  CanMake : bool
}.
End MatchResult.

Record Service : Type := New {
  pantry : PantryClient;
  recipes : RecipeClient;
  dictionary : DictionaryClient
}.

(** The [required] slice of [scoreRecipe]: the non-optional ingredients, in
    recipe order. *)
Definition required (recipe : Recipe.t) : list RecipeIngredient.t :=
  List.filter (fun ing => negb (RecipeIngredient.IsOptional ing)) (Recipe.Ingredients recipe).

(** The inner loop of [scoreRecipe] over the substitutes of one ingredient:
    on the first substitute in the pantry it increments [matched], sets
    [foundSub] and breaks.  It returns [(matched, foundSub)]. *)
Fixpoint scanSubs (pantrySet : gmap string bool) (subs : list IngredientSubstitute.t)
    (matched : Z) : Z * bool :=
  match subs with
  | [] => (matched, false)
  | sub :: rest =>
      if index_bool pantrySet (IngredientSubstitute.SubstituteID sub)
      then (matched + 1, true)
      else scanSubs pantrySet rest matched
  end.

(** The [MissingIngredient] literal of [scoreRecipe]; [Name] is not set and
    so holds the empty string. *)
Definition missingOf (ing : RecipeIngredient.t) : MissingIngredient.t :=
  {| MissingIngredient.IngredientID := RecipeIngredient.IngredientID ing;
     MissingIngredient.Name := ""%string;
     MissingIngredient.Quantity := RecipeIngredient.Quantity ing;
     MissingIngredient.Unit := RecipeIngredient.Unit ing |}.

(** One iteration of the outer loop of [scoreRecipe], on the loop state
    [(missing, matched)]. *)
Definition scoreIngredient (pantrySet : gmap string bool)
    (subsMap : gmap string (list IngredientSubstitute.t))
    (st : list MissingIngredient.t * Z) (ing : RecipeIngredient.t)
    : list MissingIngredient.t * Z :=
  let '(missing, matched) := st in
  if index_bool pantrySet (RecipeIngredient.IngredientID ing)
  then (missing, matched + 1)
  else
    let '(matched', foundSub) :=
      scanSubs pantrySet (index_slice subsMap (RecipeIngredient.IngredientID ing)) matched in
    if foundSub then (missing, matched')
    else (missing ++ [missingOf ing], matched').

(** The outer loop of [scoreRecipe], from the state [(missing, matched)]. *)
Definition scoreLoop (pantrySet : gmap string bool)
    (subsMap : gmap string (list IngredientSubstitute.t))
    (reqs : list RecipeIngredient.t) (st : list MissingIngredient.t * Z)
    : list MissingIngredient.t * Z :=
  fold_left (scoreIngredient pantrySet subsMap) reqs st.

Definition scoreRecipe (recipe : Recipe.t) (pantrySet : gmap string bool)
    (subsMap : gmap string (list IngredientSubstitute.t)) (maxMissing : Z)
    : MatchResult.t :=
  let required := required recipe in
  if len required =? 0 then
    {| MatchResult.Recipe := recipe;
       MatchResult.CoveragePct := 100%float;
       MatchResult.MissingIngredients := [];
       MatchResult.CanMake := true |}
  else
    let '(missing, matched) := scoreLoop pantrySet subsMap required ([], 0) in
    let coveragePct :=
      (float64_of_int matched / float64_of_int (len required) * 100)%float in
    {| MatchResult.Recipe := recipe;
       MatchResult.CoveragePct := coveragePct;
       MatchResult.MissingIngredients := missing;
       MatchResult.CanMake := len missing <=? maxMissing |}.

(** The presence set [Score] builds from the pantry items: one key per
    [IngredientID], with value [true]. *)
Definition pantrySetOf (pantryItems : list PantryItem.t) : gmap string bool :=
  fold_left (fun pantrySet item => <[PantryItem.IngredientID item := true]> pantrySet)
    pantryItems ∅.

(** The ids [Score] looks substitutes up for: the required ingredients, over
    all recipes, that are not in the pantry set. *)
Definition missingIDsOf (pantrySet : gmap string bool) (recipes : list Recipe.t)
    : gmap string bool :=
  fold_left (fun missingIDs recipe =>
    fold_left (fun missingIDs ing =>
      if negb (RecipeIngredient.IsOptional ing)
         && negb (index_bool pantrySet (RecipeIngredient.IngredientID ing))
      then <[RecipeIngredient.IngredientID ing := true]> missingIDs
      else missingIDs)
      (Recipe.Ingredients recipe) missingIDs)
    recipes ∅.

(** The fan-out of [Score] over [missingIDs]: one [GetSubstitutes] call per
    key, each storing under its own key when it answers a non-nil slice
    without error.  The goroutines write distinct keys under a mutex and are
    joined before the map is read, so the map after [wg.Wait()] is this one
    whatever the schedule. *)
Definition prefetchSubs (d : DictionaryClient) (missingIDs : gmap string bool)
    : gmap string (list IngredientSubstitute.t) :=
  map_imap (fun ingredientID _ =>
    match GetSubstitutes d ingredientID with
    | Fetched (Some subs) => Some subs
    | Fetched None => None
    | Failed _ => None
    end) missingIDs.

(** The comparison [Score] hands to [sort.Slice]. *)
Definition lessResult (a b : MatchResult.t) : bool :=
  if negb (MatchResult.CoveragePct a =? MatchResult.CoveragePct b)%float
  then (MatchResult.CoveragePct b <? MatchResult.CoveragePct a)%float
  else len (MatchResult.MissingIngredients a) <? len (MatchResult.MissingIngredients b).

(** The ranking and filtering step of [Score]: sort, then keep the results
    with [CanMake]. *)
Definition rankAndFilter (results : list MatchResult.t) : list MatchResult.t :=
  List.filter MatchResult.CanMake (sortSlice lessResult results).

(** The [seen] set of [resolveNames]. *)
Definition seenOf (results : list MatchResult.t) : gmap string bool :=
  fold_left (fun seen r =>
    fold_left (fun seen m => <[MissingIngredient.IngredientID m := true]> seen)
      (MatchResult.MissingIngredients r) seen)
    results ∅.

(** The fan-out of [resolveNames] over [seen]: one [GetIngredient] call per
    key, each storing the name under its own key when it answers a detail
    without error (same discipline as [prefetchSubs]). *)
Definition fetchNames (d : DictionaryClient) (seen : gmap string bool) : gmap string string :=
  map_imap (fun ingredientID _ =>
    match GetIngredient d ingredientID with
    | Fetched (Some detail) => Some (IngredientDetail.Name detail)
    | Fetched None => None
    | Failed _ => None
    end) seen.

(** The body of the last loop of [resolveNames] on one record. *)
Definition setName (nameMap : gmap string string) (m : MissingIngredient.t)
    : MissingIngredient.t :=
  match nameMap !! MissingIngredient.IngredientID m with
  | Some name =>
      {| MissingIngredient.IngredientID := MissingIngredient.IngredientID m;
         MissingIngredient.Name := name;
         MissingIngredient.Quantity := MissingIngredient.Quantity m;
         MissingIngredient.Unit := MissingIngredient.Unit m |}
  | None => m
  end.

Definition setNames (nameMap : gmap string string) (r : MatchResult.t) : MatchResult.t :=
  {| MatchResult.Recipe := MatchResult.Recipe r;
     MatchResult.CoveragePct := MatchResult.CoveragePct r;
     MatchResult.MissingIngredients := map (setName nameMap) (MatchResult.MissingIngredients r);
     MatchResult.CanMake := MatchResult.CanMake r |}.

(** [resolveNames] writes through the slice it is given; the embedding
    returns the slice as it stands afterwards.  The value written to a record
    depends on that record's id alone, so slices sharing storage are updated
    consistently. *)
Definition resolveNames (s : Service) (results : list MatchResult.t) : list MatchResult.t :=
  let seen := seenOf results in
  if Z.of_nat (size seen) =? 0 then results
  else
    let nameMap := fetchNames (dictionary s) seen in
    map (setNames nameMap) results.

(** [Score] returns the Go pair [([]MatchResult, error)]: the slice ([None]
    for [nil]) and the error ([None] for [nil]). *)
Definition Score (s : Service) (allowSubs : bool) (maxMissing : Z)
    : option (list MatchResult.t) * option string :=
  match GetPantry (pantry s) with
  | Failed err => (None, Some (String.append "fetch pantry: " err))
  | Fetched pantryItems =>
      match GetRecipes (recipes s) with
      | Failed err => (None, Some (String.append "fetch recipes: " err))
      | Fetched recipes =>
          let pantrySet := pantrySetOf pantryItems in
          let subsMap :=
            if allowSubs
            then prefetchSubs (dictionary s) (missingIDsOf pantrySet recipes)
            else ∅ in
          let results :=
            map (fun recipe => scoreRecipe recipe pantrySet subsMap maxMissing) recipes in
          let filtered := rankAndFilter results in
          (Some (resolveNames s filtered), None)
      end
  end.

End service.

(** ** Package api *)

Module api.
Import clients service.

(** [strconv.Atoi] of Go's library on a 64-bit platform: an optional sign,
    then one or more decimal digits, the value within the range of [int];
    [None] stands for a non-nil error. *)
Definition digitOf (ch : ascii) : option Z :=
  let n := Z.of_N (N_of_ascii ch) in
  if (48 <=? n) && (n <=? 57) then Some (n - 48) else None.

Fixpoint parseDigits (s : string) (n : Z) : option Z :=
  match s with
  | EmptyString => Some n
  | String ch rest =>
      match digitOf ch with
      | Some d => parseDigits rest (n * 10 + d)
      | None => None
      end
  end.

Definition Atoi (s : string) : option Z :=
  let '(neg, digits) :=
    match s with
    | String "-"%char rest => (true, rest)
    | String "+"%char rest => (false, rest)
    | _ => (false, s)
    end in
  match digits with
  | EmptyString => None
  | _ =>
      match parseDigits digits 0 with
      | Some n =>
          let v := if neg then - n else n in
          if (- 2 ^ 63 <=? v) && (v <=? 2 ^ 63 - 1) then Some v else None
      | None => None
      end
  end.

(** What a handler writes: [jsonOK] with the value encoded, or [jsonError]
    with a message and a status. *)
Inductive Response : Type :=
| jsonOK (v : option (list MatchResult.t))
| jsonError (msg : string) (status : Z).

Definition StatusBadRequest : Z := 400.
Definition StatusBadGateway : Z := 502.

(** The common tail of both handlers: call [Score] and write the answer. *)
Definition respond (svc : Service) (allowSubs : bool) (maxMissing : Z) : Response :=
  match Score svc allowSubs maxMissing with
  | (_, Some err) => jsonError (String.append "scoring failed: " err) StatusBadGateway
  | (results, None) => jsonOK results
  end.

(** [handleGetMatches], on the values of the query parameters [allow_subs]
    and [max_missing] (the empty string when a parameter is absent). *)
Definition handleGetMatches (svc : Service) (allow_subs max_missing : string) : Response :=
  let allowSubs := String.eqb allow_subs "true" in
  if String.eqb max_missing "" then respond svc allowSubs 0
  else
    match Atoi max_missing with
    | None => jsonError "max_missing must be a non-negative integer" StatusBadRequest
    | Some n =>
        if n <? 0
        then jsonError "max_missing must be a non-negative integer" StatusBadRequest
        else respond svc allowSubs n
    end.

Record matchQueryRequest : Type := {
  Prompt : string;
  PantryConstrained : bool;
  MaxMissing : Z
}.

(** [handlePostMatchQuery], on the outcome of decoding the request body
    ([None] when the decoder fails). *)
Definition handlePostMatchQuery (svc : Service) (body : option matchQueryRequest) : Response :=
  match body with
  | None => jsonError "invalid request body" StatusBadRequest
  | Some req =>
      let maxMissing := if MaxMissing req <? 0 then 0 else MaxMissing req in
      respond svc false maxMissing
  end.

End api.


(** ** Package clients: the methods over HTTP *)

From Stdlib Require Import DecimalString.

Module transport.

(** The verb [%d] of [fmt] on an [int]. *)
Definition Itoa (n : Z) : string := NilZero.string_of_int (Z.to_int n).

(** How one GET ends in Go's [net/http]: [http.NewRequestWithContext]
    fails, or [Do] fails, or a response arrives with its status code and its
    body. *)
Inductive exchange : Type :=
| RequestError (err : string)
| DoError (err : string)
| Response (StatusCode : Z) (Body : string).

Definition StatusOK : Z := 200.
Definition StatusNotFound : Z := 404.
Definition StatusMethodNotAllowed : Z := 405.

(** [json.NewDecoder(resp.Body).Decode] of Go's library at the four target
    types, taken as given.  Decoding into a slice may leave it [nil] (a JSON
    [null]); [Score] tests the substitutes for [nil], so that decoder answers
    an [option]. *)
Record Json : Type := {
  decodePantryItems : string -> fetch (list clients.PantryItem.t);
  decodeRecipes : string -> fetch (list clients.Recipe.t);
  decodeIngredientDetail : string -> fetch clients.IngredientDetail.t;
  decodeSubstitutes : string -> fetch (option (list clients.IngredientSubstitute.t))
}.

(** The three client structs: a base URL and an HTTP client, the latter by
    the exchange each URL ends in. *)
Module PantryClient.
Record t : Type := mk { baseURL : string; http : string -> exchange }.
End PantryClient.

Module RecipeClient.
Record t : Type := mk { baseURL : string; http : string -> exchange }.
End RecipeClient.

Module DictionaryClient.
Record t : Type := mk { baseURL : string; http : string -> exchange }.
End DictionaryClient.

Definition NewPantryClient (net : string -> exchange) (baseURL : string) : PantryClient.t :=
  {| PantryClient.baseURL := baseURL; PantryClient.http := net |}.

Definition NewRecipeClient (net : string -> exchange) (baseURL : string) : RecipeClient.t :=
  {| RecipeClient.baseURL := baseURL; RecipeClient.http := net |}.

Definition NewDictionaryClient (net : string -> exchange) (baseURL : string)
    : DictionaryClient.t :=
  {| DictionaryClient.baseURL := baseURL; DictionaryClient.http := net |}.

Definition GetPantry (json : Json) (c : PantryClient.t) : fetch (list clients.PantryItem.t) :=
  match PantryClient.http c (String.append (PantryClient.baseURL c) "/pantry") with
  | RequestError err => Failed (String.append "create request: " err)
  | DoError err => Failed (String.append "do request: " err)
  | Response StatusCode Body =>
      if negb (StatusCode =? StatusOK)
      then Failed (String.append "pantry service returned " (Itoa StatusCode))
      else
        match decodePantryItems json Body with
        | Failed err => Failed (String.append "decode response: " err)
        | Fetched items => Fetched items
        end
  end.

Definition GetRecipes (json : Json) (c : RecipeClient.t) : fetch (list clients.Recipe.t) :=
  match RecipeClient.http c (String.append (RecipeClient.baseURL c) "/recipes") with
  | RequestError err => Failed (String.append "create request: " err)
  | DoError err => Failed (String.append "do request: " err)
  | Response StatusCode Body =>
      if negb (StatusCode =? StatusOK)
      then Failed (String.append "recipe service returned " (Itoa StatusCode))
      else
        match decodeRecipes json Body with
        | Failed err => Failed (String.append "decode response: " err)
        | Fetched recipes => Fetched recipes
        end
  end.

(** [GetIngredient] answers [nil] without error on 404. *)
Definition GetIngredient (json : Json) (c : DictionaryClient.t) (id : string)
    : fetch (option clients.IngredientDetail.t) :=
  match DictionaryClient.http c
          (String.append (DictionaryClient.baseURL c) (String.append "/ingredients/" id)) with
  | RequestError err => Failed (String.append "create request: " err)
  | DoError err => Failed (String.append "do request: " err)
  | Response StatusCode Body =>
      if StatusCode =? StatusNotFound then Fetched None
      else if negb (StatusCode =? StatusOK)
      then Failed (String.append "dictionary service returned " (Itoa StatusCode))
      else
        match decodeIngredientDetail json Body with
        | Failed err => Failed (String.append "decode response: " err)
        | Fetched ing => Fetched (Some ing)
        end
  end.

(** [GetSubstitutes] answers [nil] without error on 404 and on 405. *)
Definition GetSubstitutes (json : Json) (c : DictionaryClient.t) (ingredientID : string)
    : fetch (option (list clients.IngredientSubstitute.t)) :=
  match DictionaryClient.http c
          (String.append (DictionaryClient.baseURL c)
             (String.append "/ingredients/" (String.append ingredientID "/substitutes"))) with
  | RequestError err => Failed (String.append "create request: " err)
  | DoError err => Failed (String.append "do request: " err)
  | Response StatusCode Body =>
      if (StatusCode =? StatusNotFound) || (StatusCode =? StatusMethodNotAllowed)
      then Fetched None
      else if negb (StatusCode =? StatusOK)
      then Failed (String.append "dictionary service returned " (Itoa StatusCode))
      else
        match decodeSubstitutes json Body with
        | Failed err => Failed (String.append "decode response: " err)
        | Fetched subs => Fetched subs
        end
  end.

(** The clients as [Score] sees them: each method, with what it answers. *)
Definition pantryMethods (json : Json) (c : PantryClient.t) : clients.PantryClient :=
  {| clients.GetPantry := GetPantry json c |}.

Definition recipeMethods (json : Json) (c : RecipeClient.t) : clients.RecipeClient :=
  {| clients.GetRecipes := GetRecipes json c |}.

Definition dictionaryMethods (json : Json) (c : DictionaryClient.t) : clients.DictionaryClient :=
  {| clients.GetIngredient := GetIngredient json c;
     clients.GetSubstitutes := GetSubstitutes json c |}.

End transport.

(** ** Package main *)

Module cmd.

(** How [main] ends: it logs a message and exits with status 1, or it
    reaches [http.ListenAndServe] with an address and the router of a service
    (what the listener does from there, a failure to bind included, is Go's
    library and outside the model). *)
Inductive outcome : Type :=
| Exit (msg : string)
| ListenAndServe (addr : string) (svc : service.Service).

(** [main], on the environment ([os.Getenv] answers the empty string for an
    unset variable), the network and the JSON decoders. *)
Definition main (Getenv : string -> string) (net : string -> transport.exchange)
    (json : transport.Json) : outcome :=
  let port := if String.eqb (Getenv "PORT") "" then "8080"%string else Getenv "PORT" in
  let pantryURL := Getenv "PANTRY_URL" in
  if String.eqb pantryURL "" then Exit "PANTRY_URL is required"
  else
    let recipeURL := Getenv "RECIPE_URL" in
    if String.eqb recipeURL "" then Exit "RECIPE_URL is required"
    else
      let dictionaryURL := Getenv "DICTIONARY_URL" in
      if String.eqb dictionaryURL "" then Exit "DICTIONARY_URL is required"
      else
        let svc :=
          service.New
            (transport.pantryMethods json (transport.NewPantryClient net pantryURL))
            (transport.recipeMethods json (transport.NewRecipeClient net recipeURL))
            (transport.dictionaryMethods json (transport.NewDictionaryClient net dictionaryURL)) in
        ListenAndServe (String.append ":" port) svc.

End cmd.
(** ** Vocabulary of the statements *)

Import clients service api.

(** Some substitute listed for [id] in [subsMap] is in the pantry set. *)
Definition subInPantry (pantrySet : gmap string bool)
    (subsMap : gmap string (list IngredientSubstitute.t)) (id : string) : bool :=
  existsb (fun sub => index_bool pantrySet (IngredientSubstitute.SubstituteID sub))
    (index_slice subsMap id).

(** An ingredient is matched: directly, or through a substitute. *)
Definition matchedIng (pantrySet : gmap string bool)
    (subsMap : gmap string (list IngredientSubstitute.t)) (ing : RecipeIngredient.t) : bool :=
  index_bool pantrySet (RecipeIngredient.IngredientID ing)
  || subInPantry pantrySet subsMap (RecipeIngredient.IngredientID ing).

Definition totalRequiredCount (recipe : Recipe.t) : Z := len (required recipe).

Definition matchedRequiredCount (pantrySet : gmap string bool)
    (subsMap : gmap string (list IngredientSubstitute.t)) (recipe : Recipe.t) : Z :=
  len (List.filter (matchedIng pantrySet subsMap) (required recipe)).

(** A record, and a result, with the names blanked: all that
    [resolveNames] must leave alone. *)
Definition withoutName (m : MissingIngredient.t) : MissingIngredient.t :=
  {| MissingIngredient.IngredientID := MissingIngredient.IngredientID m;
     MissingIngredient.Name := ""%string;
     MissingIngredient.Quantity := MissingIngredient.Quantity m;
     MissingIngredient.Unit := MissingIngredient.Unit m |}.

Definition withoutNames (r : MatchResult.t) : MatchResult.t :=
  {| MatchResult.Recipe := MatchResult.Recipe r;
     MatchResult.CoveragePct := MatchResult.CoveragePct r;
     MatchResult.MissingIngredients := map withoutName (MatchResult.MissingIngredients r);
     MatchResult.CanMake := MatchResult.CanMake r |}.

(** A lookup that fails, or answers nothing. *)
Definition noAnswer {A : Type} (r : fetch (option A)) : Prop :=
  r = Fetched None \/ exists err, r = Failed err.

Definition failed {A : Type} (r : fetch A) : Prop := exists err, r = Failed err.

(** The place of a binary64 value in the order of IEEE comparison, as a
    triple compared lexicographically: class and sign, then exponent, then
    mantissa; both zeros share a place and a NaN has none. *)
Definition SFrank (f : spec_float) : option (Z * Z * Z) :=
  match f with
  | S754_nan => None
  | S754_infinity true => Some (-2, 0, 0)
  | S754_infinity false => Some (2, 0, 0)
  | S754_zero _ => Some (0, 0, 0)
  | S754_finite true m e => Some (-1, - e, Zneg m)
  | S754_finite false m e => Some (1, e, Zpos m)
  end.

Definition lex3 (a b : Z * Z * Z) : comparison :=
  let '(a1, a2, a3) := a in
  let '(b1, b2, b3) := b in
  match a1 ?= b1 with
  | Eq => match a2 ?= b2 with Eq => a3 ?= b3 | c => c end
  | c => c
  end.

Definition lt3 (a b : Z * Z * Z) : Prop :=
  let '(a1, a2, a3) := a in
  let '(b1, b2, b3) := b in
  a1 < b1 \/ (a1 = b1 /\ (a2 < b2 \/ (a2 = b2 /\ a3 < b3))).

Definition rankOf (f : float64) : option (Z * Z * Z) := SFrank (Prim2SF f).

(** A result whose coverage is a number (every comparison with a NaN is
    false, so a NaN has no place in the order [lessResult] sorts by). *)
Definition numericCoverage (r : MatchResult.t) : Prop := is_nan (MatchResult.CoveragePct r) = false.

(** A binary64 value that is not a NaN and carries the sign bit [s]. *)
Definition signed (s : bool) (f : spec_float) : Prop :=
  match f with
  | S754_zero s' => s' = s
  | S754_infinity s' => s' = s
  | S754_finite s' _ _ => s' = s
  | S754_nan => False
  end.

(** A record with the name its own lookup answers, if it answers one. *)
Definition nameOf (d : DictionaryClient) (m : MissingIngredient.t) : MissingIngredient.t :=
  match GetIngredient d (MissingIngredient.IngredientID m) with
  | Fetched (Some detail) =>
      {| MissingIngredient.IngredientID := MissingIngredient.IngredientID m;
         MissingIngredient.Name := IngredientDetail.Name detail;
         MissingIngredient.Quantity := MissingIngredient.Quantity m;
         MissingIngredient.Unit := MissingIngredient.Unit m |}
  | _ => m
  end.

Definition namesOf (d : DictionaryClient) (r : MatchResult.t) : MatchResult.t :=
  {| MatchResult.Recipe := MatchResult.Recipe r;
     MatchResult.CoveragePct := MatchResult.CoveragePct r;
     MatchResult.MissingIngredients := map (nameOf d) (MatchResult.MissingIngredients r);
     MatchResult.CanMake := MatchResult.CanMake r |}.

(** The substitutes a lookup of [id] answers: none when it fails or answers
    [nil]. *)
Definition answeredSubs (d : DictionaryClient) (id : string) : list IngredientSubstitute.t :=
  match GetSubstitutes d id with
  | Fetched (Some subs) => subs
  | _ => []
  end.

(** The ids of the required ingredients, over all recipes, that are not in
    the pantry set; with repetitions, in catalog order. *)
Definition neededIDs (pantrySet : gmap string bool) (recipes : list Recipe.t) : list string :=
  flat_map (fun recipe =>
    map RecipeIngredient.IngredientID
      (List.filter (fun ing => negb (index_bool pantrySet (RecipeIngredient.IngredientID ing)))
         (required recipe)))
    recipes.

(** The substitute map [Score] scores with. *)
Definition subsMapOf (d : DictionaryClient) (allowSubs : bool) (pantrySet : gmap string bool)
    (recipes : list Recipe.t) : gmap string (list IngredientSubstitute.t) :=
  if allowSubs then prefetchSubs d (missingIDsOf pantrySet recipes) else ∅.

(** ** Sample data *)

Definition sampleIng (id : string) (quantity : float64) (optional : bool)
    : RecipeIngredient.t :=
  {| RecipeIngredient.ID := String.append "ri-" id;
     RecipeIngredient.IngredientID := id;
     RecipeIngredient.Quantity := quantity;
     RecipeIngredient.Unit := "cup";
     RecipeIngredient.IsOptional := optional |}.

Definition sampleRecipe (id : string) (ingredients : list RecipeIngredient.t) : Recipe.t :=
  {| Recipe.ID := id;
     Recipe.Title := String.append "recipe " id;
     Recipe.Tags := ["dinner"%string];
     Recipe.PrepMinutes := 10;
     Recipe.CookMinutes := 30;
     Recipe.Ingredients := ingredients |}.

Definition sampleItem (id : string) (quantity : float64) : PantryItem.t :=
  {| PantryItem.ID := String.append "pi-" id;
     PantryItem.IngredientID := id;
     PantryItem.Quantity := quantity;
     PantryItem.Unit := "g" |}.

Definition sampleSub (id substitute : string) (ratio : float64) (notes : string)
    : IngredientSubstitute.t :=
  {| IngredientSubstitute.IngredientID := id;
     IngredientSubstitute.SubstituteID := substitute;
     IngredientSubstitute.Ratio := ratio;
     IngredientSubstitute.Notes := notes |}.

(** Bread: flour, water and yeast are required, garlic is optional. *)
Definition bread : Recipe.t :=
  sampleRecipe "bread"
    [sampleIng "flour" 3%float false; sampleIng "water" 1%float false;
     sampleIng "garlic" 1%float true; sampleIng "yeast" 0.5%float false].

(** Garnish: nothing is required. *)
Definition garnish : Recipe.t :=
  sampleRecipe "garnish" [sampleIng "garlic" 1%float true; sampleIng "basil" 2%float true].

(** Flatbread: flour is all it takes. *)
Definition flatbread : Recipe.t :=
  sampleRecipe "flatbread" [sampleIng "flour" 2%float false].

(** Double yeast: yeast is listed twice, next to flour. *)
Definition doubleYeast : Recipe.t :=
  sampleRecipe "double"
    [sampleIng "yeast" 1%float false; sampleIng "flour" 1%float false;
     sampleIng "yeast" 2%float false].

(** A pantry with flour, and water at quantity zero. *)
Definition pantryItems : list PantryItem.t :=
  [sampleItem "flour" 500%float; sampleItem "water" 0%float].

(** A pantry with flour alone, at a negative quantity. *)
Definition flourOnly : list PantryItem.t := [sampleItem "flour" (-1)%float].

(** Yeast has three substitutes; the second and the third are in
    [pantryItems]. *)
Definition yeastSubs : gmap string (list IngredientSubstitute.t) :=
  {[ "yeast"%string :=
       [sampleSub "yeast" "soda" 1%float "";
        sampleSub "yeast" "water" 2%float "weak";
        sampleSub "yeast" "flour" 3%float "sourdough"] ]}.

(** A dictionary that knows yeast, fails on water and has nothing else. *)
Definition sampleDictionary : DictionaryClient :=
  {| GetIngredient := fun id =>
       if String.eqb id "yeast"
       then Fetched (Some {| IngredientDetail.ID := id; IngredientDetail.Name := "Yeast" |})
       else if String.eqb id "water" then Failed "dictionary service returned 500"
       else Fetched None;
     GetSubstitutes := fun id =>
       if String.eqb id "yeast"
       then Fetched (Some [sampleSub "yeast" "soda" 1%float "";
                           sampleSub "yeast" "flour" 3%float "sourdough"])
       else if String.eqb id "water" then Failed "dictionary service returned 500"
       else Fetched None |}.

Definition sampleService : Service :=
  {| pantry := {| GetPantry := Fetched flourOnly |};
     recipes := {| GetRecipes := Fetched [bread; garnish; flatbread; doubleYeast] |};
     dictionary := sampleDictionary |}.

(** The same service with the recipe service down. *)
Definition recipesDown : Service :=
  {| pantry := {| GetPantry := Fetched flourOnly |};
     recipes := {| GetRecipes := Failed "recipe service returned 503" |};
     dictionary := sampleDictionary |}.


(** The results of scoring the sample recipes without substitutes, with a
    tolerance of two. *)
Definition sampleResults : list MatchResult.t :=
  map (fun recipe => scoreRecipe recipe (pantrySetOf flourOnly) ∅ 2)
    [bread; garnish; flatbread; doubleYeast].

(** Decoders that know three bodies. *)
Definition sampleJson : transport.Json :=
  {| transport.decodePantryItems := fun body =>
       if String.eqb body "[flour]" then Fetched flourOnly
       else Failed "invalid character";
     transport.decodeRecipes := fun body =>
       if String.eqb body "[catalog]" then Fetched [bread; garnish; flatbread; doubleYeast]
       else Failed "invalid character";
     transport.decodeIngredientDetail := fun body =>
       if String.eqb body "{yeast}"
       then Fetched {| IngredientDetail.ID := "yeast"; IngredientDetail.Name := "Yeast" |}
       else Failed "invalid character";
     transport.decodeSubstitutes := fun body => Failed "invalid character" |}.

(** A network where the pantry and recipe services answer and every other
    URL, the dictionary's among them, answers 405. *)
Definition sampleNet (url : string) : transport.exchange :=
  if String.eqb url "http://pantry/pantry" then transport.Response 200 "[flour]"
  else if String.eqb url "http://recipes/recipes" then transport.Response 200 "[catalog]"
  else transport.Response 405 "method not allowed".

(** The same network with the pantry service answering 503. *)
Definition pantryDownNet (url : string) : transport.exchange :=
  if String.eqb url "http://pantry/pantry" then transport.Response 503 "unavailable"
  else sampleNet url.


Definition serviceOver (net : string -> transport.exchange) : Service :=
  service.New
    (transport.pantryMethods sampleJson (transport.NewPantryClient net "http://pantry"))
    (transport.recipeMethods sampleJson (transport.NewRecipeClient net "http://recipes"))
    (transport.dictionaryMethods sampleJson
       (transport.NewDictionaryClient net "http://dictionary")).


(** An environment with the three URLs set and no port. *)
Definition sampleEnv (name : string) : string :=
  if String.eqb name "PANTRY_URL" then "http://pantry"
  else if String.eqb name "RECIPE_URL" then "http://recipes"
  else if String.eqb name "DICTIONARY_URL" then "http://dictionary"
  else "".

(** ** The coverage scorer *)

Section Scorer.
Variable pantrySet : gmap string bool.
Variable subsMap : gmap string (list IngredientSubstitute.t).

Lemma scanSubs_existsb subs matched :
  scanSubs pantrySet subs matched =
  let found := existsb (fun sub => index_bool pantrySet (IngredientSubstitute.SubstituteID sub)) subs in
  (if found then matched + 1 else matched, found).
Proof.
  induction subs as [|sub rest IH]; simpl; [reflexivity|].
  destruct (index_bool pantrySet (IngredientSubstitute.SubstituteID sub)); simpl; auto.
Qed.

Lemma scoreIngredient_matched missing matched ing :
  matchedIng pantrySet subsMap ing = true ->
  scoreIngredient pantrySet subsMap (missing, matched) ing = (missing, matched + 1).
Proof.
  unfold matchedIng, subInPantry, scoreIngredient. intros H.
  destruct (index_bool pantrySet (RecipeIngredient.IngredientID ing)); [reflexivity|].
  rewrite scanSubs_existsb. simpl in H |- *. rewrite H. reflexivity.
Qed.

Lemma scoreIngredient_missing missing matched ing :
  matchedIng pantrySet subsMap ing = false ->
  scoreIngredient pantrySet subsMap (missing, matched) ing
  = (missing ++ [missingOf ing], matched).
Proof.
  unfold matchedIng, subInPantry, scoreIngredient. intros H.
  apply orb_false_iff in H as [H1 H2]. rewrite H1, scanSubs_existsb. simpl.
  rewrite H2. reflexivity.
Qed.

Lemma scoreLoop_spec reqs missing matched :
  scoreLoop pantrySet subsMap reqs (missing, matched) =
  (missing ++ map missingOf (List.filter (fun ing => negb (matchedIng pantrySet subsMap ing)) reqs),
   matched + len (List.filter (matchedIng pantrySet subsMap) reqs)).
Proof.
  unfold scoreLoop. revert missing matched.
  induction reqs as [|ing reqs IH]; intros missing matched.
  - simpl. rewrite app_nil_r. f_equal. unfold len. simpl. lia.
  - cbn [fold_left List.filter].
    destruct (matchedIng pantrySet subsMap ing) eqn:E; cbn [negb].
    + rewrite scoreIngredient_matched by exact E. rewrite IH. f_equal.
      unfold len. cbn [length]. lia.
    + rewrite scoreIngredient_missing by exact E. rewrite IH.
      rewrite <- app_assoc. reflexivity.
Qed.

Lemma scoreRecipe_missing recipe maxMissing :
  MatchResult.MissingIngredients (scoreRecipe recipe pantrySet subsMap maxMissing) =
  map missingOf (List.filter (fun ing => negb (matchedIng pantrySet subsMap ing)) (required recipe)).
Proof.
  unfold scoreRecipe. destruct (len (required recipe) =? 0) eqn:E.
  - apply Z.eqb_eq in E. unfold len in E.
    destruct (required recipe); [reflexivity | simpl in E; lia].
  - rewrite scoreLoop_spec. reflexivity.
Qed.

Lemma scoreRecipe_coverage recipe maxMissing :
  MatchResult.CoveragePct (scoreRecipe recipe pantrySet subsMap maxMissing) =
  if totalRequiredCount recipe =? 0 then 100%float
  else (float64_of_int (matchedRequiredCount pantrySet subsMap recipe)
        / float64_of_int (totalRequiredCount recipe) * 100)%float.
Proof.
  unfold scoreRecipe, totalRequiredCount, matchedRequiredCount.
  destruct (len (required recipe) =? 0); [reflexivity|].
  rewrite scoreLoop_spec. reflexivity.
Qed.

Lemma scoreRecipe_canMake recipe maxMissing :
  MatchResult.CanMake (scoreRecipe recipe pantrySet subsMap maxMissing) =
  (totalRequiredCount recipe =? 0)
  || (len (MatchResult.MissingIngredients (scoreRecipe recipe pantrySet subsMap maxMissing))
      <=? maxMissing).
Proof.
  unfold scoreRecipe, totalRequiredCount.
  destruct (len (required recipe) =? 0); [reflexivity|].
  rewrite scoreLoop_spec. reflexivity.
Qed.

End Scorer.

Lemma filter_filter_andb {A : Type} (f g : A -> bool) (l : list A) :
  List.filter f (List.filter g l) = List.filter (fun x => g x && f x) l.
Proof.
  induction l as [|x l IH]; simpl; [reflexivity|].
  destruct (g x); simpl; [destruct (f x)|]; rewrite IH; reflexivity.
Qed.

Lemma len_zero_nil {A : Type} (l : list A) : len l = 0 -> l = [].
Proof. unfold len. destruct l; simpl; [reflexivity | lia]. Qed.

(** C1.  For a recipe with at least one required ingredient, the missing
    list of [scoreRecipe] is the list of the recipe's ingredients that are
    not optional, not in the pantry set and without a substitute in the
    pantry set, in recipe order, each as a record of its id, quantity and unit
    with an empty name. *)
Theorem missing_exactly_uncovered_required
    (recipe : Recipe.t) (pantrySet : gmap string bool)
    (subsMap : gmap string (list IngredientSubstitute.t)) (maxMissing : Z) :
  0 < totalRequiredCount recipe ->
  MatchResult.MissingIngredients (scoreRecipe recipe pantrySet subsMap maxMissing) =
  map (fun ing =>
         {| MissingIngredient.IngredientID := RecipeIngredient.IngredientID ing;
            MissingIngredient.Name := ""%string;
            MissingIngredient.Quantity := RecipeIngredient.Quantity ing;
            MissingIngredient.Unit := RecipeIngredient.Unit ing |})
      (List.filter (fun ing =>
         negb (RecipeIngredient.IsOptional ing)
         && negb (index_bool pantrySet (RecipeIngredient.IngredientID ing)
                  || subInPantry pantrySet subsMap (RecipeIngredient.IngredientID ing)))
         (Recipe.Ingredients recipe)).
Proof.
  intros _. rewrite scoreRecipe_missing. unfold required.
  rewrite filter_filter_andb. reflexivity.
Qed.

Lemma missing_exactly_uncovered_required_witness :
  MatchResult.MissingIngredients (scoreRecipe bread (pantrySetOf flourOnly) yeastSubs 0) =
  [ {| MissingIngredient.IngredientID := "water"%string;
       MissingIngredient.Name := ""%string;
       MissingIngredient.Quantity := 1%float;
       MissingIngredient.Unit := "cup"%string |} ].
Proof.
  rewrite (missing_exactly_uncovered_required bread (pantrySetOf flourOnly) yeastSubs 0).
  - vm_compute. reflexivity.
  - vm_compute. reflexivity.
Defined.

(** C2, as the code has it.  The coverage is the quotient of the two counts,
    rounded to binary64, then multiplied by 100 and rounded again; it is
    exactly 100 when nothing is required. *)
Theorem coverage_is_quotient_times_hundred
    (recipe : Recipe.t) (pantrySet : gmap string bool)
    (subsMap : gmap string (list IngredientSubstitute.t)) (maxMissing : Z) :
  MatchResult.CoveragePct (scoreRecipe recipe pantrySet subsMap maxMissing) =
  if totalRequiredCount recipe =? 0 then 100%float
  else (float64_of_int (matchedRequiredCount pantrySet subsMap recipe)
        / float64_of_int (totalRequiredCount recipe) * 100)%float.
Proof.
  unfold scoreRecipe, totalRequiredCount, matchedRequiredCount.
  destruct (len (required recipe) =? 0); [reflexivity|].
  rewrite scoreLoop_spec. cbn [MatchResult.CoveragePct].
  rewrite Z.add_0_l. reflexivity.
Qed.

(** C2, as stated, fails: with one of three required ingredients matched the
    code yields [1/3*100 = 33.333333333333329], which is not the binary64
    value [33.333333333333336] of [100*1/3]
    (neither as the same float nor under Go's [==]). *)
Lemma coverage_not_hundred_times_quotient :
  totalRequiredCount bread = 3 /\
  matchedRequiredCount (pantrySetOf flourOnly) ∅ bread = 1 /\
  MatchResult.CoveragePct (scoreRecipe bread (pantrySetOf flourOnly) ∅ 0)
    = 0x1.0aaaaaaaaaaaap+5%float /\
  (100 * float64_of_int 1 / float64_of_int 3)%float = 0x1.0aaaaaaaaaaabp+5%float /\
  (MatchResult.CoveragePct (scoreRecipe bread (pantrySetOf flourOnly) ∅ 0)
   =? 100 * float64_of_int 1 / float64_of_int 3)%float = false.
Proof. repeat split; vm_compute; reflexivity. Qed.

(** C5.  A recipe with no required ingredient scores 100 with an empty
    missing list and is makeable, whatever the pantry set, the substitute map
    and the tolerance. *)
Theorem nothing_required_is_makeable
    (recipe : Recipe.t) (pantrySet : gmap string bool)
    (subsMap : gmap string (list IngredientSubstitute.t)) (maxMissing : Z) :
  totalRequiredCount recipe = 0 ->
  scoreRecipe recipe pantrySet subsMap maxMissing =
  {| MatchResult.Recipe := recipe;
     MatchResult.CoveragePct := 100%float;
     MatchResult.MissingIngredients := [];
     MatchResult.CanMake := true |}.
Proof.
  unfold totalRequiredCount, scoreRecipe. intros ->. reflexivity.
Qed.

Lemma nothing_required_is_makeable_witness :
  scoreRecipe garnish (pantrySetOf pantryItems) yeastSubs (-5) =
  {| MatchResult.Recipe := garnish;
     MatchResult.CoveragePct := 100%float;
     MatchResult.MissingIngredients := [];
     MatchResult.CanMake := true |}.
Proof.
  apply (nothing_required_is_makeable garnish (pantrySetOf pantryItems) yeastSubs (-5)).
  vm_compute. reflexivity.
Defined.

(** C6.  For a tolerance that is not negative, [CanMake] is the comparison
    of the number of missing ingredients with the tolerance. *)
Theorem canMake_iff_within_tolerance
    (recipe : Recipe.t) (pantrySet : gmap string bool)
    (subsMap : gmap string (list IngredientSubstitute.t)) (maxMissing : Z) :
  0 <= maxMissing ->
  MatchResult.CanMake (scoreRecipe recipe pantrySet subsMap maxMissing) =
  (len (MatchResult.MissingIngredients (scoreRecipe recipe pantrySet subsMap maxMissing))
   <=? maxMissing).
Proof.
  intros Hmax. rewrite scoreRecipe_canMake.
  destruct (totalRequiredCount recipe =? 0) eqn:E; [|reflexivity].
  apply Z.eqb_eq in E. rewrite scoreRecipe_missing.
  apply len_zero_nil in E. rewrite E. simpl. symmetry. apply Z.leb_le. exact Hmax.
Qed.

Lemma canMake_iff_within_tolerance_witness :
  MatchResult.CanMake (scoreRecipe bread (pantrySetOf flourOnly) ∅ 1) =
  (len (MatchResult.MissingIngredients (scoreRecipe bread (pantrySetOf flourOnly) ∅ 1)) <=? 1).
Proof.
  apply (canMake_iff_within_tolerance bread (pantrySetOf flourOnly) ∅ 1).
  vm_compute. discriminate.
Defined.

(** ** Substitutes, presence and duplicates *)






Lemma pantrySetOf_fold_lookup (items : list PantryItem.t) (m : gmap string bool) (id : string) :
  fold_left (fun pantrySet item => <[PantryItem.IngredientID item := true]> pantrySet) items m
    !! id
  = if bool_decide (id ∈ map PantryItem.IngredientID items) then Some true else m !! id.
Proof.
  revert m. induction items as [|item items IH]; intros m; cbn [fold_left map].
  - reflexivity.
  - rewrite IH. destruct (decide (id = PantryItem.IngredientID item)) as [->|Hne].
    + rewrite lookup_insert_eq.
      rewrite (bool_decide_eq_true_2 (_ ∈ _ :: _)) by apply list_elem_of_here.
      case_bool_decide; reflexivity.
    + rewrite lookup_insert_ne by congruence.
      rewrite (bool_decide_ext (id ∈ PantryItem.IngredientID item :: map PantryItem.IngredientID items)
                 (id ∈ map PantryItem.IngredientID items)); [reflexivity|].
      rewrite elem_of_cons. tauto.
Qed.

Lemma pantrySetOf_index (items : list PantryItem.t) (id : string) :
  index_bool (pantrySetOf items) id = bool_decide (id ∈ map PantryItem.IngredientID items).
Proof.
  unfold index_bool, pantrySetOf. rewrite pantrySetOf_fold_lookup, lookup_empty.
  case_bool_decide; reflexivity.
Qed.

Lemma filter_length_split {A : Type} (f : A -> bool) (l : list A) :
  len l = len (List.filter f l) + len (List.filter (fun x => negb (f x)) l).
Proof.
  unfold len. induction l as [|x l IH]; simpl; [reflexivity|].
  destruct (f x); simpl; lia.
Qed.

(** C10.  The presence set holds exactly the ids of the pantry items,
    whatever their quantities: every item makes its id present, and two
    pantries with the same ids give the same set.  The scorer treats each
    occurrence of a required ingredient on its own: for an id that is neither
    in the pantry set nor covered by a substitute, the missing list has as
    many records with that id as the recipe has required ingredients with it,
    and every required occurrence is counted either in [matched] or in the
    missing list, so each such occurrence adds one to the divisor of the
    coverage and nothing to its dividend. *)
Theorem presence_by_id_and_occurrences_scored_apart
    (items : list PantryItem.t) (recipe : Recipe.t) (pantrySet : gmap string bool)
    (subsMap : gmap string (list IngredientSubstitute.t)) (maxMissing : Z) (id : string) :
  index_bool pantrySet id = false ->
  subInPantry pantrySet subsMap id = false ->
  (forall item, In item items ->
     index_bool (pantrySetOf items) (PantryItem.IngredientID item) = true)
  /\ (forall items', map PantryItem.IngredientID items' = map PantryItem.IngredientID items ->
        pantrySetOf items' = pantrySetOf items)
  /\ (forall id', index_bool (pantrySetOf items) id' = true
                  <-> In id' (map PantryItem.IngredientID items))
  /\ len (List.filter (fun m => String.eqb (MissingIngredient.IngredientID m) id)
            (MatchResult.MissingIngredients (scoreRecipe recipe pantrySet subsMap maxMissing)))
     = len (List.filter (fun ing => String.eqb (RecipeIngredient.IngredientID ing) id)
              (required recipe))
  /\ totalRequiredCount recipe
     = matchedRequiredCount pantrySet subsMap recipe
       + len (MatchResult.MissingIngredients (scoreRecipe recipe pantrySet subsMap maxMissing)).
Proof.
  intros Hpantry Hsub.
  assert (Hiff : forall id', index_bool (pantrySetOf items) id' = true
                             <-> In id' (map PantryItem.IngredientID items)).
  { intros id'. rewrite pantrySetOf_index, bool_decide_eq_true. apply list_elem_of_In. }
  repeat split.
  - intros item Hitem. apply Hiff. apply in_map. exact Hitem.
  - intros items' Hids. apply map_eq. intros k. unfold pantrySetOf.
    rewrite !pantrySetOf_fold_lookup, Hids. reflexivity.
  - apply Hiff.
  - apply Hiff.
  - rewrite scoreRecipe_missing. unfold len. f_equal.
    induction (required recipe) as [|ing reqs IH]; [reflexivity|].
    cbn [List.filter].
    destruct (matchedIng pantrySet subsMap ing) eqn:Em;
      destruct (String.eqb (RecipeIngredient.IngredientID ing) id) eqn:E;
      cbn [negb map List.filter length].
    + apply String.eqb_eq in E. unfold matchedIng in Em.
      rewrite E, Hpantry, Hsub in Em. discriminate.
    + exact IH.
    + change (MissingIngredient.IngredientID (missingOf ing))
        with (RecipeIngredient.IngredientID ing).
      rewrite E. cbn [length]. f_equal. exact IH.
    + change (MissingIngredient.IngredientID (missingOf ing))
        with (RecipeIngredient.IngredientID ing).
      rewrite E. exact IH.
  - rewrite scoreRecipe_missing. unfold totalRequiredCount, matchedRequiredCount.
    rewrite (filter_length_split (matchedIng pantrySet subsMap) (required recipe)).
    unfold len. rewrite length_map. reflexivity.
Qed.

Lemma presence_by_id_and_occurrences_scored_apart_witness :
  index_bool (pantrySetOf flourOnly) "flour" = true
  /\ len (List.filter (fun m => String.eqb (MissingIngredient.IngredientID m) "yeast")
            (MatchResult.MissingIngredients
               (scoreRecipe doubleYeast (pantrySetOf flourOnly) ∅ 0))) = 2
  /\ totalRequiredCount doubleYeast = 3
  /\ matchedRequiredCount (pantrySetOf flourOnly) ∅ doubleYeast = 1
  /\ MatchResult.CoveragePct (scoreRecipe doubleYeast (pantrySetOf flourOnly) ∅ 0)
     = 0x1.0aaaaaaaaaaaap+5%float.
Proof.
  destruct (presence_by_id_and_occurrences_scored_apart flourOnly doubleYeast
              (pantrySetOf flourOnly) ∅ 0 "yeast") as (Hitem & _ & _ & Hcount & Htotal).
  - vm_compute. reflexivity.
  - vm_compute. reflexivity.
  - split; [apply (Hitem (sampleItem "flour" (-1)%float)); left; reflexivity|].
    split; [rewrite Hcount; vm_compute; reflexivity|].
    repeat split; vm_compute; reflexivity.
Defined.

(** ** The order of binary64 comparison *)

Lemma SFcompare_rank (x y : spec_float) :
  SFcompare x y =
  match SFrank x, SFrank y with
  | Some a, Some b => Some (lex3 a b)
  | _, _ => None
  end.
Proof.
  destruct x as [sx|sx| |sx mx ex], y as [sy|sy| |sy my ey];
    try destruct sx; try destruct sy; try reflexivity; cbn.
  rewrite Z.compare_opp, (Z.compare_antisym ex ey).
  destruct (ex ?= ey); reflexivity.
Qed.

Lemma lex3_spec (a b : Z * Z * Z) : CompareSpec (a = b) (lt3 a b) (lt3 b a) (lex3 a b).
Proof.
  destruct a as [[a1 a2] a3], b as [[b1 b2] b3]. unfold lex3, lt3.
  destruct (Z.compare_spec a1 b1); [|constructor; lia..].
  destruct (Z.compare_spec a2 b2); [|constructor; lia..].
  destruct (Z.compare_spec a3 b3); constructor; [congruence | lia..].
Qed.

Lemma is_nan_rankOf (f : float64) : is_nan f = false -> exists k, rankOf f = Some k.
Proof.
  unfold is_nan, rankOf. rewrite FloatAxioms.eqb_spec. unfold SFeqb.
  rewrite SFcompare_rank. destruct (SFrank (Prim2SF f)) as [k|]; [eauto | discriminate].
Qed.

Lemma eqb_rankOf (x y : float64) (a b : Z * Z * Z) :
  rankOf x = Some a -> rankOf y = Some b ->
  (x =? y)%float = match lex3 a b with Eq => true | _ => false end.
Proof.
  unfold rankOf. intros Ha Hb. rewrite FloatAxioms.eqb_spec. unfold SFeqb.
  rewrite SFcompare_rank, Ha, Hb. reflexivity.
Qed.

Lemma ltb_rankOf (x y : float64) (a b : Z * Z * Z) :
  rankOf x = Some a -> rankOf y = Some b ->
  (x <? y)%float = match lex3 a b with Lt => true | _ => false end.
Proof.
  unfold rankOf. intros Ha Hb. rewrite FloatAxioms.ltb_spec. unfold SFltb.
  rewrite SFcompare_rank, Ha, Hb. reflexivity.
Qed.

(** ** Ranking and filtering *)

Section InsertionSort.
Context {A : Type}.
Variable less : A -> A -> bool.
Variable dom : A -> Prop.
Hypothesis less_asym : forall x y, dom x -> dom y -> less x y = true -> less y x = false.
Hypothesis less_negtrans : forall x y z, dom x -> dom y -> dom z ->
  less x y = false -> less y z = false -> less x z = false.

Lemma insertLeft_perm (x : A) (rprefix : list A) :
  Permutation (insertLeft less x rprefix) (x :: rprefix).
Proof.
  induction rprefix as [|y rest IH]; simpl; [reflexivity|].
  destruct (less x y); [|reflexivity].
  rewrite IH. apply perm_swap.
Qed.

Lemma insertLeft_sorted (x : A) (rprefix : list A) :
  dom x -> Forall dom rprefix ->
  StronglySorted (fun later earlier => less later earlier = false) rprefix ->
  StronglySorted (fun later earlier => less later earlier = false) (insertLeft less x rprefix).
Proof.
  intros Hx. induction rprefix as [|y rest IH]; intros Hdom Hsorted; simpl.
  - repeat constructor.
  - apply Forall_cons in Hdom as [Hy Hrest].
    apply StronglySorted_inv in Hsorted as [Hsorted Hall].
    destruct (less x y) eqn:E.
    + constructor; [apply IH; assumption|].
      rewrite (insertLeft_perm x rest). constructor; [|exact Hall].
      apply less_asym; assumption.
    + constructor; [constructor; assumption|].
      constructor; [exact E|].
      rewrite Forall_forall in Hall, Hrest |- *. intros z Hz.
      apply (less_negtrans x y z); auto.
Qed.

Lemma sortSlice_perm (s : list A) : Permutation (sortSlice less s) s.
Proof.
  unfold sortSlice. rewrite <- Permutation_rev.
  enough (forall acc, Permutation (fold_left (fun rprefix x => insertLeft less x rprefix) s acc)
                        (s ++ acc)) as H by (rewrite H, app_nil_r; reflexivity).
  induction s as [|x s IH]; intros acc; simpl; [reflexivity|].
  rewrite IH, insertLeft_perm. symmetry. apply Permutation_middle.
Qed.

Lemma sortSlice_sorted (s : list A) :
  Forall dom s -> StronglySorted (fun a b => less b a = false) (sortSlice less s).
Proof.
  intros Hs. unfold sortSlice.
  assert (Hfold : forall acc, Forall dom s -> Forall dom acc ->
            StronglySorted (fun later earlier => less later earlier = false) acc ->
            StronglySorted (fun later earlier => less later earlier = false)
              (fold_left (fun rprefix x => insertLeft less x rprefix) s acc)).
  { clear Hs. induction s as [|x s IH]; intros acc Hs Hacc Hsorted; simpl; [exact Hsorted|].
    apply Forall_cons in Hs as [Hx Hs]. apply IH; [exact Hs| |].
    - rewrite (insertLeft_perm x acc). constructor; assumption.
    - apply insertLeft_sorted; assumption. }
  specialize (Hfold [] Hs (List.Forall_nil _) (SSorted_nil _)).
  induction Hfold as [|a l Hl IH Ha]; simpl; [constructor|].
  apply StronglySorted_app_2; [|exact IH|repeat constructor].
  intros x1 x2 Hx1 Hx2. apply list_elem_of_singleton in Hx2 as ->.
  rewrite Forall_forall in Ha. apply Ha. apply list_elem_of_In, in_rev.
  apply list_elem_of_In. exact Hx1.
Qed.

End InsertionSort.

Ltac by_rank :=
  repeat match goal with
         | H : numericCoverage _ |- _ => apply is_nan_rankOf in H as [? H]
         end;
  unfold lessResult in *;
  repeat match goal with
         | Hx : rankOf ?x = Some ?a, Hy : rankOf ?y = Some ?b |- context [(?x =? ?y)%float] =>
             rewrite (eqb_rankOf x y a b Hx Hy)
         | Hx : rankOf ?x = Some ?a, Hy : rankOf ?y = Some ?b |- context [(?x <? ?y)%float] =>
             rewrite (ltb_rankOf x y a b Hx Hy)
         | Hx : rankOf ?x = Some ?a, Hy : rankOf ?y = Some ?b,
           H : context [(?x =? ?y)%float] |- _ =>
             rewrite (eqb_rankOf x y a b Hx Hy) in H
         | Hx : rankOf ?x = Some ?a, Hy : rankOf ?y = Some ?b,
           H : context [(?x <? ?y)%float] |- _ =>
             rewrite (ltb_rankOf x y a b Hx Hy) in H
         end;
  repeat match goal with
         | |- context [lex3 ?a ?b] => destruct (lex3_spec a b)
         | H : context [lex3 ?a ?b] |- _ => destruct (lex3_spec a b)
         end;
  subst;
  repeat match goal with
         | k : (Z * Z * Z)%type |- _ => destruct k as [[? ?] ?]
         end;
  unfold lt3 in *; cbn [negb] in *;
  repeat match goal with
         | H : context [_ <? _] |- _ =>
             first [apply Z.ltb_lt in H | apply Z.ltb_ge in H]
         end.

Lemma lessResult_asym (a b : MatchResult.t) :
  numericCoverage a -> numericCoverage b -> lessResult a b = true -> lessResult b a = false.
Proof.
  intros Ha Hb H. by_rank; try discriminate; try reflexivity; try (exfalso; lia).
  apply Z.ltb_ge. lia.
Qed.

Lemma lessResult_negtrans (a b c : MatchResult.t) :
  numericCoverage a -> numericCoverage b -> numericCoverage c ->
  lessResult a b = false -> lessResult b c = false -> lessResult a c = false.
Proof.
  intros Ha Hb Hc H1 H2.
  by_rank; try discriminate; try reflexivity; try (exfalso; lia).
  apply Z.ltb_ge. lia.
Qed.

Lemma lessResult_false_law (a b : MatchResult.t) :
  numericCoverage a -> numericCoverage b -> lessResult b a = false ->
  (MatchResult.CoveragePct b <? MatchResult.CoveragePct a)%float = true
  \/ ((MatchResult.CoveragePct a =? MatchResult.CoveragePct b)%float = true
      /\ len (MatchResult.MissingIngredients a) <= len (MatchResult.MissingIngredients b)).
Proof.
  intros Ha Hb H.
  by_rank; try discriminate; try (exfalso; lia); auto.
Qed.

(** ** Coverage is a number

    The specification of binary64 rounding, followed far enough to see that
    the coverage [float64(matched) / float64(len(required)) * 100] is never
    a NaN. *)

Section Rounding.
Variables prec emax : Z.

Lemma shr_1_nonneg (r : shr_record) : 0 <= shr_m r -> 0 <= shr_m (shr_1 r).
Proof.
  destruct r as [m r s]. simpl. intros H.
  destruct m as [|p|p]; [simpl; lia | | lia].
  destruct p; simpl; lia.
Qed.

Lemma iter_pos_shr_1_nonneg (p : positive) (r : shr_record) :
  0 <= shr_m r -> 0 <= shr_m (SpecFloat.iter_pos shr_1 p r).
Proof.
  revert r. induction p as [p IH|p IH|]; intros r H; simpl.
  - apply IH, IH, shr_1_nonneg, H.
  - apply IH, IH, H.
  - apply shr_1_nonneg, H.
Qed.

Lemma shr_nonneg (r : shr_record) (e n : Z) : 0 <= shr_m r -> 0 <= shr_m (fst (shr r e n)).
Proof.
  intros H. unfold shr. destruct n; simpl; auto using iter_pos_shr_1_nonneg.
Qed.

Lemma shr_m_of_loc (m : Z) (l : location) : shr_m (shr_record_of_loc m l) = m.
Proof. destruct l as [|[ | | ]]; reflexivity. Qed.

Lemma shr_fexp_nonneg (m e : Z) (l : location) :
  0 <= m -> 0 <= shr_m (fst (shr_fexp prec emax m e l)).
Proof.
  intros H. unfold shr_fexp. apply shr_nonneg. rewrite shr_m_of_loc. exact H.
Qed.

Lemma round_nearest_even_nonneg (m : Z) (l : location) :
  0 <= m -> 0 <= round_nearest_even m l.
Proof.
  intros H. unfold round_nearest_even.
  destruct l as [|[ | | ]]; try destruct (Z.even m); lia.
Qed.

Lemma binary_round_aux_not_nan (sx : bool) (mx ex : Z) (lx : location) :
  0 <= mx -> binary_round_aux prec emax sx mx ex lx <> S754_nan.
Proof.
  intros H. unfold binary_round_aux.
  pose proof (shr_fexp_nonneg mx ex lx H) as H1.
  destruct (shr_fexp prec emax mx ex lx) as [mrs' e']. simpl in H1.
  pose proof (shr_fexp_nonneg _ e' loc_Exact
                (round_nearest_even_nonneg _ (loc_of_shr_record mrs') H1)) as H2.
  destruct (shr_fexp prec emax _ e' loc_Exact) as [mrs'' e'']. simpl in H2.
  destruct (shr_m mrs''); [discriminate| |lia].
  destruct (e'' <=? emax - prec); discriminate.
Qed.

Lemma SFmul_not_nan (x y : spec_float) (sy : bool) (my : positive) (ey : Z) :
  x <> S754_nan -> y = S754_finite sy my ey -> SFmul prec emax x y <> S754_nan.
Proof.
  intros Hx ->. destruct x; simpl; try discriminate; [congruence|].
  apply binary_round_aux_not_nan. lia.
Qed.

Lemma SFdiv_not_nan (x y : spec_float) (sy : bool) (my : positive) (ey : Z) :
  x <> S754_nan -> y = S754_finite sy my ey -> SFdiv prec emax x y <> S754_nan.
Proof.
  intros Hx ->. destruct x as [sx|sx| |sx mx ex]; simpl; try discriminate; [congruence|].
  unfold SFdiv_core_binary.
  set (m' := match _ with Z0 => Z.pos mx | Z.pos _ => _ | Z.neg _ => 0 end).
  assert (Hm' : 0 <= m').
  { subst m'. destruct (_ - _); [lia| |lia]. apply Z.shiftl_nonneg. lia. }
  pose proof (Z.div_eucl_eq m' (Z.pos my) ltac:(lia)) as Heq.
  pose proof (Z.mod_pos_bound m' (Z.pos my) ltac:(lia)) as Hmod.
  unfold Z.modulo in Hmod.
  destruct (Z.div_eucl m' (Z.pos my)) as [q r].
  apply binary_round_aux_not_nan. nia.
Qed.
End Rounding.

Lemma digits2_pos_bounds (p : positive) :
  2 ^ (Z.pos (digits2_pos p) - 1) <= Z.pos p < 2 ^ Z.pos (digits2_pos p).
Proof.
  induction p as [p IH|p IH|]; cbn [digits2_pos].
  - rewrite Pos2Z.inj_succ, (Pos2Z.inj_xI p).
    replace (Z.succ (Z.pos (digits2_pos p)) - 1) with (Z.succ (Z.pos (digits2_pos p) - 1)) by lia.
    rewrite !Z.pow_succ_r by lia.
    generalize dependent (2 ^ (Z.pos (digits2_pos p) - 1)).
    generalize (2 ^ Z.pos (digits2_pos p)). lia.
  - rewrite Pos2Z.inj_succ, (Pos2Z.inj_xO p).
    replace (Z.succ (Z.pos (digits2_pos p)) - 1) with (Z.succ (Z.pos (digits2_pos p) - 1)) by lia.
    rewrite !Z.pow_succ_r by lia.
    generalize dependent (2 ^ (Z.pos (digits2_pos p) - 1)).
    generalize (2 ^ Z.pos (digits2_pos p)). lia.
  - simpl. lia.
Qed.

Lemma Zdigits2_unique (z n : Z) : 2 ^ (n - 1) <= z < 2 ^ n -> 0 < z -> Zdigits2 z = n.
Proof.
  intros Hz Hpos. destruct z as [|p|p]; try lia. cbn [Zdigits2].
  pose proof (digits2_pos_bounds p) as Hd.
  set (D := Z.pos (digits2_pos p)) in *.
  destruct (Z.lt_trichotomy D n) as [Hlt|[Heq|Hgt]]; [|exact Heq|].
  - pose proof (Z.pow_le_mono_r 2 D (n - 1) ltac:(lia) ltac:(lia)). lia.
  - pose proof (Z.pow_le_mono_r 2 n (D - 1) ltac:(lia) ltac:(lia)). lia.
Qed.

Lemma shr_1_value (r : shr_record) : 0 <= shr_m r -> shr_m (shr_1 r) = shr_m r / 2.
Proof.
  destruct r as [m r s]. cbn [shr_m]. intros H. rewrite <- Z.div2_div.
  destruct m as [|p|p]; [reflexivity| |lia]. destruct p; reflexivity.
Qed.

Lemma iter_pos_shr_1_value (k : positive) (r : shr_record) :
  0 <= shr_m r ->
  0 <= shr_m (SpecFloat.iter_pos shr_1 k r)
  /\ shr_m (SpecFloat.iter_pos shr_1 k r) = shr_m r / 2 ^ Z.pos k.
Proof.
  revert r. induction k as [k IH|k IH|]; intros r H; cbn [SpecFloat.iter_pos].
  - assert (H1 : 0 <= shr_m (shr_1 r)) by (rewrite shr_1_value by exact H; apply Z.div_pos; lia).
    destruct (IH _ H1) as [H2 E2]. destruct (IH _ H2) as [H3 E3].
    split; [exact H3|]. rewrite E3, E2, shr_1_value by exact H.
    assert (0 < 2 ^ Z.pos k) by (apply Z.pow_pos_nonneg; lia).
    rewrite !Z.div_div by lia. f_equal.
    rewrite (Pos2Z.inj_xI k). replace (2 * Z.pos k + 1) with (Z.succ (Z.pos k + Z.pos k)) by lia.
    rewrite Z.pow_succ_r, Z.pow_add_r by lia. lia.
  - destruct (IH _ H) as [H2 E2]. destruct (IH _ H2) as [H3 E3].
    split; [exact H3|]. rewrite E3, E2.
    assert (0 < 2 ^ Z.pos k) by (apply Z.pow_pos_nonneg; lia).
    rewrite !Z.div_div by lia. f_equal.
    rewrite (Pos2Z.inj_xO k). replace (2 * Z.pos k) with (Z.pos k + Z.pos k) by lia.
    rewrite Z.pow_add_r by lia. lia.
  - rewrite shr_1_value by exact H. split; [apply Z.div_pos; lia|reflexivity].
Qed.

Lemma shr_value (r : shr_record) (e n : Z) :
  0 <= shr_m r -> 0 <= n ->
  snd (shr r e n) = e + n /\ shr_m (fst (shr r e n)) = shr_m r / 2 ^ n.
Proof.
  intros Hr Hn. unfold shr. destruct n as [|k|k]; cbn [fst snd]; [| |lia].
  - rewrite Z.pow_0_r, Z.div_1_r. split; [lia|reflexivity].
  - split; [reflexivity|]. apply iter_pos_shr_1_value. exact Hr.
Qed.

Lemma round_nearest_even_bounds (m : Z) (l : location) :
  m <= round_nearest_even m l <= m + 1.
Proof.
  unfold round_nearest_even. destruct l as [|[ | | ]]; try destruct (Z.even m); lia.
Qed.

(** Rounding a positive mantissa of at least [prec] digits, clear of the
    subnormal and of the overflow range, gives a finite number. *)
Lemma binary_round_aux_finite (s : bool) (m e : Z) (l : location) :
  0 < m -> 53 <= Zdigits2 m -> -1074 <= e -> Zdigits2 m + e < 1024 ->
  exists m' e', binary_round_aux prec emax s m e l = S754_finite s m' e'.
Proof.
  intros Hm HD He Hmax. unfold binary_round_aux, shr_fexp.
  set (D := Zdigits2 m) in *.
  assert (Hbounds : 2 ^ (D - 1) <= m < 2 ^ D).
  { subst D. destruct m as [|p|p]; try lia. apply digits2_pos_bounds. }
  assert (Hfexp : fexp prec emax (D + e) - e = D - 53).
  { unfold fexp, emin. change prec with 53. change emax with 1024. lia. }
  rewrite Hfexp.
  destruct (shr_value (shr_record_of_loc m l) e (D - 53)) as [He1 Hm1];
    [rewrite shr_m_of_loc; lia | lia |].
  destruct (shr (shr_record_of_loc m l) e (D - 53)) as [mrs1 e1].
  cbn [fst snd] in He1, Hm1. rewrite shr_m_of_loc in Hm1.
  assert (Hpow : 2 ^ (D - 1) = 2 ^ (D - 53) * 2 ^ 52).
  { rewrite <- Z.pow_add_r by lia. f_equal. lia. }
  assert (Hpow' : 2 ^ D = 2 ^ (D - 53) * 2 ^ 53).
  { rewrite <- Z.pow_add_r by lia. f_equal. lia. }
  assert (Hk : 0 < 2 ^ (D - 53)) by (apply Z.pow_pos_nonneg; lia).
  assert (Hm1b : 2 ^ 52 <= shr_m mrs1 < 2 ^ 53).
  { rewrite Hm1. split.
    - apply Z.div_le_lower_bound; lia.
    - apply Z.div_lt_upper_bound; lia. }
  pose proof (round_nearest_even_bounds (shr_m mrs1) (loc_of_shr_record mrs1)) as Hr.
  set (m2 := round_nearest_even (shr_m mrs1) (loc_of_shr_record mrs1)) in *.
  assert (HD2 : (m2 < 2 ^ 53 /\ Zdigits2 m2 = 53) \/ (m2 = 2 ^ 53 /\ Zdigits2 m2 = 54)).
  { destruct (Z.eq_dec m2 (2 ^ 53)) as [->|Hne]; [right; split; reflexivity|].
    left. split; [lia|]. apply Zdigits2_unique; [|lia]. change (53 - 1) with 52. lia. }
  destruct HD2 as [[Hlt HD2]|[Heq HD2]]; rewrite HD2.
  - assert (Hf2 : fexp prec emax (53 + e1) - e1 = 0).
    { unfold fexp, emin. change prec with 53. change emax with 1024. lia. }
    rewrite Hf2. cbn [shr shr_record_of_loc shr_m].
    destruct m2 as [|p2|p2]; try lia.
    exists p2, e1. 
    assert (Hle : (e1 <=? emax - prec) = true) by (apply Z.leb_le; change prec with 53; change emax with 1024; lia).
    rewrite Hle. reflexivity.
  - assert (Hf2 : fexp prec emax (54 + e1) - e1 = 1).
    { unfold fexp, emin. change prec with 53. change emax with 1024. lia. }
    rewrite Hf2, Heq. change (2 ^ 53) with 9007199254740992.
    cbn [shr shr_record_of_loc SpecFloat.iter_pos shr_1 shr_m orb].
    assert (Hle : (e1 + 1 <=? emax - prec) = true)
      by (apply Z.leb_le; change prec with 53; change emax with 1024; lia).
    rewrite Hle. eauto.
Qed.

Lemma digits2_pos_iter_xO (p k : positive) :
  digits2_pos (Pos.iter xO p k) = (digits2_pos p + k)%positive.
Proof.
  induction k as [|k IH] using Pos.peano_ind.
  - cbn. rewrite Pos.add_1_r. reflexivity.
  - rewrite Pos.iter_succ. cbn [digits2_pos]. rewrite IH, Pos.add_succ_r. reflexivity.
Qed.

Lemma binary_round_finite (p : positive) :
  Z.pos p < 2 ^ 63 ->
  exists m e, binary_round prec emax false p 0 = S754_finite false m e.
Proof.
  intros Hp. unfold binary_round, shl_align.
  pose proof (digits2_pos_bounds p) as Hd.
  set (d := Z.pos (digits2_pos p)) in *.
  assert (Hd63 : d <= 63).
  { destruct (Z.le_gt_cases d 63) as [H|H]; [exact H|].
    pose proof (Z.pow_le_mono_r 2 63 (d - 1) ltac:(lia) ltac:(lia)). lia. }
  assert (Hfexp : fexp prec emax (d + 0) = d - 53).
  { unfold fexp, emin. change prec with 53. change emax with 1024. lia. }
  rewrite Hfexp.
  destruct (d - 53 - 0) as [|k|k] eqn:Ek.
  - apply binary_round_aux_finite; cbn [Zdigits2]; fold d; lia.
  - apply binary_round_aux_finite; cbn [Zdigits2]; fold d; lia.
  - apply binary_round_aux_finite; cbn [Zdigits2];
      rewrite ?digits2_pos_iter_xO, ?Pos2Z.inj_add; fold d; lia.
Qed.

Lemma float64_of_int_zero_or_finite (n : Z) :
  0 <= n < 2 ^ 63 ->
  (n = 0 /\ Prim2SF (float64_of_int n) = S754_zero false)
  \/ (0 < n /\ exists m e, Prim2SF (float64_of_int n) = S754_finite false m e).
Proof.
  intros Hn. unfold float64_of_int.
  rewrite of_uint63_spec, Uint63.of_Z_spec, Z.mod_small by exact Hn.
  destruct n as [|p|p]; [left; split; reflexivity| |lia].
  right. split; [lia|]. apply binary_round_finite. lia.
Qed.

Lemma not_nan_is_nan (f : float64) : Prim2SF f <> S754_nan -> is_nan f = false.
Proof.
  intros Hf. unfold is_nan. rewrite FloatAxioms.eqb_spec. unfold SFeqb.
  rewrite SFcompare_rank.
  destruct (SFrank (Prim2SF f)) as [k|] eqn:Ek.
  - destruct (lex3_spec k k) as [_|Hlt|Hlt]; [reflexivity|..];
      destruct k as [[k1 k2] k3]; unfold lt3 in Hlt; lia.
  - destruct (Prim2SF f) as [[]|[]| |[] m e]; try discriminate. congruence.
Qed.

Lemma quotient_times_hundred_not_nan (m n : Z) :
  0 <= m < 2 ^ 63 -> 0 < n < 2 ^ 63 ->
  is_nan (float64_of_int m / float64_of_int n * 100)%float = false.
Proof.
  intros Hm Hn. apply not_nan_is_nan.
  rewrite FloatAxioms.mul_spec, FloatAxioms.div_spec.
  destruct (float64_of_int_zero_or_finite n ltac:(lia)) as [[? _]|[_ (mn & en & Hfn)]]; [lia|].
  apply (SFmul_not_nan _ _ _ _ false 7036874417766400%positive (-46)); [|reflexivity].
  apply (SFdiv_not_nan _ _ _ _ false mn en); [|exact Hfn].
  destruct (float64_of_int_zero_or_finite m Hm) as [[_ ->]|[_ (mm & em & ->)]]; discriminate.
Qed.

Lemma filter_len_le {A : Type} (f : A -> bool) (l : list A) : len (List.filter f l) <= len l.
Proof. unfold len. pose proof (List.filter_length_le f l). lia. Qed.

(** Every result of [scoreRecipe] on a slice Go can hold (fewer than [2^63]
    elements) has a coverage that is a number. *)
Lemma scoreRecipe_scored (recipe : Recipe.t) (pantrySet : gmap string bool)
    (subsMap : gmap string (list IngredientSubstitute.t)) (maxMissing : Z) :
  len (Recipe.Ingredients recipe) < 2 ^ 63 ->
  numericCoverage (scoreRecipe recipe pantrySet subsMap maxMissing).
Proof.
  intros Hlen. unfold numericCoverage. rewrite scoreRecipe_coverage.
  pose proof (filter_len_le (fun ing => negb (RecipeIngredient.IsOptional ing))
                (Recipe.Ingredients recipe)) as Hreq.
  fold (required recipe) in Hreq.
  pose proof (filter_len_le (matchedIng pantrySet subsMap) (required recipe)) as Hmatched.
  unfold totalRequiredCount, matchedRequiredCount.
  destruct (Z.eqb_spec (len (required recipe)) 0) as [_|Hne]; [reflexivity|].
  apply quotient_times_hundred_not_nan; unfold len in *; lia.
Qed.

Lemma Score_results_scored (recipes : list Recipe.t) (pantrySet : gmap string bool)
    (subsMap : gmap string (list IngredientSubstitute.t)) (maxMissing : Z) :
  Forall (fun recipe => len (Recipe.Ingredients recipe) < 2 ^ 63) recipes ->
  Forall numericCoverage (map (fun recipe => scoreRecipe recipe pantrySet subsMap maxMissing) recipes).
Proof.
  induction 1 as [|recipe recipes Hrecipe _ IH]; cbn [map]; constructor.
  - apply scoreRecipe_scored. exact Hrecipe.
  - exact IH.
Qed.

Lemma filter_Permutation_bool {A : Type} (f : A -> bool) (l l' : list A) :
  Permutation l l' -> Permutation (List.filter f l) (List.filter f l').
Proof.
  induction 1 as [|x l l' _ IH|x y l|l l' l'' _ IH1 _ IH2]; simpl.
  - reflexivity.
  - destruct (f x); [constructor|]; exact IH.
  - destruct (f x), (f y); try reflexivity. apply perm_swap.
  - etransitivity; eassumption.
Qed.

Lemma StronglySorted_filter_bool {A : Type} (R : A -> A -> Prop) (f : A -> bool) (l : list A) :
  StronglySorted R l -> StronglySorted R (List.filter f l).
Proof.
  induction 1 as [|x l Hl IH Hx]; simpl; [constructor|].
  destruct (f x); [|exact IH]. constructor; [exact IH|].
  rewrite Forall_forall in Hx |- *. intros y Hy. apply Hx.
  apply list_elem_of_In in Hy. apply List.filter_In in Hy as [Hy _].
  apply list_elem_of_In. exact Hy.
Qed.

Lemma StronglySorted_lookup {A : Type} (R : A -> A -> Prop) (l : list A) (i j : nat) (a b : A) :
  StronglySorted R l -> (i < j)%nat -> l !! i = Some a -> l !! j = Some b -> R a b.
Proof.
  intros Hl. revert i j. induction Hl as [|x l Hl IH Hx]; intros i j Hij Hi Hj.
  - discriminate.
  - destruct j as [|j]; [lia|]. destruct i as [|i]; simpl in Hi, Hj.
    + injection Hi as <-. rewrite Forall_forall in Hx. apply Hx.
      eapply list_elem_of_lookup_2. exact Hj.
    + apply (IH i j); [lia | assumption..].
Qed.

(** The law of the ranking step, for any way of sorting: if [sorted] is a
    permutation of the results in which no element is [lessResult] than an
    earlier one (all that [sort.Slice] promises, ties in any order), then
    filtering it by [CanMake] gives the makeable results, ranked. *)
Lemma filter_sorted_law (results sorted : list MatchResult.t) :
  Forall numericCoverage results ->
  Permutation sorted results ->
  StronglySorted (fun a b => lessResult b a = false) sorted ->
  Permutation (List.filter MatchResult.CanMake sorted) (List.filter MatchResult.CanMake results)
  /\ Forall (fun r => MatchResult.CanMake r = true) (List.filter MatchResult.CanMake sorted)
  /\ forall (i j : nat) (A B : MatchResult.t),
       (i < j)%nat ->
       List.filter MatchResult.CanMake sorted !! i = Some A ->
       List.filter MatchResult.CanMake sorted !! j = Some B ->
       (MatchResult.CoveragePct B <? MatchResult.CoveragePct A)%float = true
       \/ ((MatchResult.CoveragePct A =? MatchResult.CoveragePct B)%float = true
           /\ len (MatchResult.MissingIngredients A) <= len (MatchResult.MissingIngredients B)).
Proof.
  intros Hnum Hperm Hsorted.
  split; [apply filter_Permutation_bool, Hperm|]. split.
  - apply Forall_forall. intros r Hr.
    apply list_elem_of_In, List.filter_In in Hr. tauto.
  - intros i j A B Hij HA HB.
    assert (Hin : forall r, r ∈ List.filter MatchResult.CanMake sorted -> numericCoverage r).
    { intros r Hr. rewrite Forall_forall in Hnum. apply Hnum. rewrite <- Hperm.
      apply list_elem_of_In. apply list_elem_of_In, List.filter_In in Hr. tauto. }
    apply lessResult_false_law.
    + apply Hin. eapply list_elem_of_lookup_2. exact HA.
    + apply Hin. eapply list_elem_of_lookup_2. exact HB.
    + apply (StronglySorted_lookup (fun a b => lessResult b a = false)
               (List.filter MatchResult.CanMake sorted) i j A B); try assumption.
      apply StronglySorted_filter_bool. exact Hsorted.
Qed.

(** C3.  On results whose coverage is a number (as every coverage the
    scorer computes is), the ranking and filtering step returns the results
    with [CanMake], each as often as the input has it and no other, and for
    [A] before [B] in the output either [A.CoveragePct > B.CoveragePct], or
    the two coverages are equal and [A] has at most as many missing
    ingredients as [B]. *)
Theorem rankAndFilter_law (results : list MatchResult.t) :
  Forall numericCoverage results ->
  Permutation (rankAndFilter results) (List.filter MatchResult.CanMake results)
  /\ Forall (fun r => MatchResult.CanMake r = true) (rankAndFilter results)
  /\ forall (i j : nat) (A B : MatchResult.t),
       (i < j)%nat ->
       rankAndFilter results !! i = Some A ->
       rankAndFilter results !! j = Some B ->
       (MatchResult.CoveragePct B <? MatchResult.CoveragePct A)%float = true
       \/ ((MatchResult.CoveragePct A =? MatchResult.CoveragePct B)%float = true
           /\ len (MatchResult.MissingIngredients A) <= len (MatchResult.MissingIngredients B)).
Proof.
  intros Hnum. unfold rankAndFilter. apply filter_sorted_law.
  - exact Hnum.
  - apply sortSlice_perm.
  - apply (sortSlice_sorted lessResult numericCoverage lessResult_asym lessResult_negtrans).
    exact Hnum.
Qed.

Lemma rankAndFilter_law_witness :
  Permutation (rankAndFilter sampleResults) (List.filter MatchResult.CanMake sampleResults)
  /\ Forall (fun r => MatchResult.CanMake r = true) (rankAndFilter sampleResults)
  /\ forall (i j : nat) (A B : MatchResult.t),
       (i < j)%nat ->
       rankAndFilter sampleResults !! i = Some A ->
       rankAndFilter sampleResults !! j = Some B ->
       (MatchResult.CoveragePct B <? MatchResult.CoveragePct A)%float = true
       \/ ((MatchResult.CoveragePct A =? MatchResult.CoveragePct B)%float = true
           /\ len (MatchResult.MissingIngredients A) <= len (MatchResult.MissingIngredients B)).
Proof.
  apply (rankAndFilter_law sampleResults).
  apply Score_results_scored. repeat constructor.
Defined.

(** ** Name resolution *)

Lemma withoutName_setName (nameMap : gmap string string) (m : MissingIngredient.t) :
  withoutName (setName nameMap m) = withoutName m.
Proof. unfold setName. destruct (nameMap !! _); reflexivity. Qed.

Lemma withoutNames_setNames (nameMap : gmap string string) (r : MatchResult.t) :
  withoutNames (setNames nameMap r) = withoutNames r.
Proof.
  unfold withoutNames, setNames. simpl. f_equal.
  rewrite map_map. apply map_ext. apply withoutName_setName.
Qed.

Lemma fetchNames_noAnswer (d : DictionaryClient) (seen : gmap string bool) (id : string) :
  noAnswer (GetIngredient d id) -> fetchNames d seen !! id = None.
Proof.
  intros Hno. unfold fetchNames. rewrite map_lookup_imap.
  destruct (seen !! id); [simpl|reflexivity].
  destruct Hno as [-> | [err ->]]; reflexivity.
Qed.

Lemma prefetchSubs_noAnswer (d : DictionaryClient) (missingIDs : gmap string bool) (id : string) :
  noAnswer (GetSubstitutes d id) -> prefetchSubs d missingIDs !! id = None.
Proof.
  intros Hno. unfold prefetchSubs. rewrite map_lookup_imap.
  destruct (missingIDs !! id); [simpl|reflexivity].
  destruct Hno as [-> | [err ->]]; reflexivity.
Qed.

(** C9.  [resolveNames] changes nothing but names: with the names blanked,
    the list after the call is the list before it (same results in the same
    order, each with its recipe, coverage, [CanMake] and its missing records
    in number, order, id, quantity and unit); and a record whose id the
    dictionary fails on, or does not know, keeps the name it had, so an empty
    name stays empty. *)
Theorem resolveNames_writes_names_only (s : Service) (results : list MatchResult.t) :
  map withoutNames (resolveNames s results) = map withoutNames results
  /\ forall (i j : nat) (r r' : MatchResult.t) (m m' : MissingIngredient.t),
       results !! i = Some r ->
       resolveNames s results !! i = Some r' ->
       MatchResult.MissingIngredients r !! j = Some m ->
       MatchResult.MissingIngredients r' !! j = Some m' ->
       noAnswer (GetIngredient (dictionary s) (MissingIngredient.IngredientID m)) ->
       MissingIngredient.Name m' = MissingIngredient.Name m.
Proof.
  unfold resolveNames. destruct (Z.of_nat (size (seenOf results)) =? 0).
  - split; [reflexivity|]. intros i j r r' m m' Hr Hr' Hm Hm' _. congruence.
  - split.
    + rewrite map_map. apply map_ext. apply withoutNames_setNames.
    + intros i j r r' m m' Hr Hr' Hm Hm' Hno.
      change (map (setNames ?nm) results) with (setNames nm <$> results) in Hr'.
      rewrite list_lookup_fmap, Hr in Hr'. injection Hr' as <-.
      cbn [setNames MatchResult.MissingIngredients] in Hm'.
      change (map (setName ?nm) ?l) with (setName nm <$> l) in Hm'.
      rewrite list_lookup_fmap, Hm in Hm'. injection Hm' as <-.
      unfold setName. rewrite fetchNames_noAnswer by exact Hno. reflexivity.
Qed.

Lemma resolveNames_writes_names_only_witness :
  map withoutNames (resolveNames sampleService sampleResults) = map withoutNames sampleResults
  /\ forall (r' : MatchResult.t) (m' : MissingIngredient.t),
       resolveNames sampleService sampleResults !! 0%nat = Some r' ->
       MatchResult.MissingIngredients r' !! 0%nat = Some m' ->
       MissingIngredient.Name m' = ""%string.
Proof.
  destruct (resolveNames_writes_names_only sampleService sampleResults) as [Hframe Hname].
  split; [exact Hframe|]. intros r' m' Hr' Hm'.
  apply (Hname 0%nat 0%nat (scoreRecipe bread (pantrySetOf flourOnly) ∅ 2) r'
           (missingOf (sampleIng "water" 1%float false)) m').
  - reflexivity.
  - exact Hr'.
  - vm_compute. reflexivity.
  - exact Hm'.
  - right. exists "dictionary service returned 500"%string. reflexivity.
Defined.

(** ** The orchestrator *)

(** C7.  [Score] returns an error exactly when the pantry fetch or the
    recipe fetch fails, and then returns the [nil] slice; otherwise it returns
    a slice and no error, whatever the dictionary answers.  A substitute
    lookup that fails or answers nothing leaves its id without an entry in
    the substitute map (its substitute list reads as empty), and a name
    lookup that fails or answers nothing leaves its id without a name. *)
Theorem Score_fails_iff_fetch_fails (s : Service) (allowSubs : bool) (maxMissing : Z) :
  (is_Some (snd (Score s allowSubs maxMissing))
   <-> failed (GetPantry (pantry s)) \/ failed (GetRecipes (recipes s)))
  /\ (is_Some (snd (Score s allowSubs maxMissing)) -> fst (Score s allowSubs maxMissing) = None)
  /\ (snd (Score s allowSubs maxMissing) = None -> is_Some (fst (Score s allowSubs maxMissing)))
  /\ (forall d : DictionaryClient,
        is_Some (snd (Score {| pantry := pantry s; recipes := recipes s; dictionary := d |}
                        allowSubs maxMissing))
        <-> is_Some (snd (Score s allowSubs maxMissing)))
  /\ (forall (missingIDs : gmap string bool) (id : string),
        noAnswer (GetSubstitutes (dictionary s) id) ->
        index_slice (prefetchSubs (dictionary s) missingIDs) id = [])
  /\ (forall (seen : gmap string bool) (id : string),
        noAnswer (GetIngredient (dictionary s) id) ->
        fetchNames (dictionary s) seen !! id = None).
Proof.
  assert (Hiff : forall s0 : Service,
            is_Some (snd (Score s0 allowSubs maxMissing))
            <-> failed (GetPantry (pantry s0)) \/ failed (GetRecipes (recipes s0))).
  { intros s0. unfold Score, failed.
    destruct (GetPantry (pantry s0)) as [pantryItems|err].
    - destruct (GetRecipes (recipes s0)) as [recipes|err]; simpl.
      + split.
        * intros [? ?]. discriminate.
        * intros [[? ?]|[? ?]]; discriminate.
      + split; [intros _; right|intros _]; eauto.
    - simpl. split; [intros _; left|intros _]; eauto. }
  split; [apply Hiff|].
  split; [|split; [|split; [|split]]].
  - unfold Score. destruct (GetPantry (pantry s)); [|reflexivity].
    destruct (GetRecipes (recipes s)); [|reflexivity].
    simpl. intros [? ?]. discriminate.
  - unfold Score. destruct (GetPantry (pantry s)); [|discriminate].
    destruct (GetRecipes (recipes s)); [|discriminate].
    simpl. eauto.
  - intros d. rewrite !Hiff. reflexivity.
  - intros missingIDs id Hno. unfold index_slice.
    rewrite prefetchSubs_noAnswer by exact Hno. reflexivity.
  - intros seen id Hno. apply fetchNames_noAnswer. exact Hno.
Qed.

Lemma Score_fails_iff_fetch_fails_witness :
  Score recipesDown true 3 = (None, Some "fetch recipes: recipe service returned 503"%string)
  /\ fst (Score recipesDown true 3) = None
  /\ (exists results, Score sampleService true 3 = (Some results, None))
  /\ index_slice (prefetchSubs sampleDictionary {[ "water"%string := true ]}) "water" = [].
Proof.
  destruct (Score_fails_iff_fetch_fails recipesDown true 3) as (Hiff & Hnil & _).
  destruct (Score_fails_iff_fetch_fails sampleService true 3) as (_ & _ & _ & _ & Hsubs & _).
  split; [vm_compute; reflexivity|].
  split.
  - apply Hnil. apply Hiff. right. eexists. reflexivity.
  - split; [eexists; vm_compute; reflexivity|].
    apply (Hsubs {[ "water"%string := true ]} "water"%string).
    right. eexists. reflexivity.
Defined.




(** ** More on the coverage scorer *)

Lemma binary_round_aux_signed (sx : bool) (mx ex : Z) (lx : location) :
  0 <= mx -> signed sx (binary_round_aux prec emax sx mx ex lx).
Proof.
  intros H. unfold binary_round_aux.
  pose proof (shr_fexp_nonneg prec emax mx ex lx H) as H1.
  destruct (shr_fexp prec emax mx ex lx) as [mrs' e']. simpl in H1.
  pose proof (shr_fexp_nonneg prec emax _ e' loc_Exact
                (round_nearest_even_nonneg _ (loc_of_shr_record mrs') H1)) as H2.
  destruct (shr_fexp prec emax _ e' loc_Exact) as [mrs'' e'']. simpl in H2.
  destruct (shr_m mrs''); [reflexivity| |lia].
  destruct (e'' <=? emax - prec); reflexivity.
Qed.

Lemma SFdiv_signed (x : spec_float) (my : positive) (ey : Z) :
  signed false x -> x = S754_zero false \/ (exists mx ex, x = S754_finite false mx ex) ->
  signed false (SFdiv prec emax x (S754_finite false my ey)).
Proof.
  intros _ [->|(mx & ex & ->)]; [reflexivity|].
  cbn [SFdiv xorb]. unfold SFdiv_core_binary.
  set (m' := match _ with Z0 => Z.pos mx | Z.pos _ => _ | Z.neg _ => 0 end).
  assert (Hm' : 0 <= m').
  { subst m'. destruct (_ - _); [lia| |lia]. apply Z.shiftl_nonneg. lia. }
  pose proof (Z.div_eucl_eq m' (Z.pos my) ltac:(lia)) as Heq.
  pose proof (Z.mod_pos_bound m' (Z.pos my) ltac:(lia)) as Hmod.
  unfold Z.modulo in Hmod.
  destruct (Z.div_eucl m' (Z.pos my)) as [q r].
  apply binary_round_aux_signed. nia.
Qed.

Lemma SFmul_signed (x : spec_float) (my : positive) (ey : Z) :
  signed false x -> signed false (SFmul prec emax x (S754_finite false my ey)).
Proof.
  destruct x as [s|s| |s mx ex]; cbn [signed SFmul]; try (intros ->; reflexivity); [tauto|].
  intros ->. apply binary_round_aux_signed. lia.
Qed.

Lemma signed_false_nonneg (f : float64) :
  signed false (Prim2SF f) -> is_nan f = false /\ (0 <=? f)%float = true.
Proof.
  intros Hs. split.
  - apply not_nan_is_nan. intros E. rewrite E in Hs. exact Hs.
  - rewrite FloatAxioms.leb_spec. change (Prim2SF 0) with (S754_zero false).
    destruct (Prim2SF f) as [s|s| |s m e]; cbn in Hs; subst; try reflexivity. contradiction.
Qed.

Lemma quotient_times_hundred_signed (m n : Z) :
  0 <= m < 2 ^ 63 -> 0 < n < 2 ^ 63 ->
  signed false (Prim2SF (float64_of_int m / float64_of_int n * 100)%float).
Proof.
  intros Hm Hn. rewrite FloatAxioms.mul_spec, FloatAxioms.div_spec.
  change (Prim2SF 100) with (S754_finite false 7036874417766400 (-46)).
  destruct (float64_of_int_zero_or_finite n ltac:(lia)) as [[? _]|[_ (mn & en & ->)]]; [lia|].
  apply SFmul_signed, SFdiv_signed.
  - destruct (float64_of_int_zero_or_finite m Hm) as [[_ ->]|[_ (mm & em & ->)]]; reflexivity.
  - destruct (float64_of_int_zero_or_finite m Hm) as [[_ ->]|[_ (mm & em & ->)]]; eauto.
Qed.

(** X1.  On a slice Go can hold, the coverage [scoreRecipe] computes is a
    number (not a NaN, so [c == c] holds) and is not negative. *)
Theorem coverage_is_a_nonnegative_number
    (recipe : Recipe.t) (pantrySet : gmap string bool)
    (subsMap : gmap string (list IngredientSubstitute.t)) (maxMissing : Z) :
  len (Recipe.Ingredients recipe) < 2 ^ 63 ->
  is_nan (MatchResult.CoveragePct (scoreRecipe recipe pantrySet subsMap maxMissing)) = false
  /\ (0 <=? MatchResult.CoveragePct (scoreRecipe recipe pantrySet subsMap maxMissing))%float
     = true.
Proof.
  intros Hlen. rewrite scoreRecipe_coverage.
  pose proof (filter_len_le (fun ing => negb (RecipeIngredient.IsOptional ing))
                (Recipe.Ingredients recipe)) as Hreq.
  fold (required recipe) in Hreq.
  pose proof (filter_len_le (matchedIng pantrySet subsMap) (required recipe)) as Hmatched.
  unfold totalRequiredCount, matchedRequiredCount.
  destruct (Z.eqb_spec (len (required recipe)) 0) as [_|Hne]; [split; reflexivity|].
  apply signed_false_nonneg, quotient_times_hundred_signed; unfold len in *; lia.
Qed.

Lemma coverage_is_a_nonnegative_number_witness :
  is_nan (MatchResult.CoveragePct (scoreRecipe bread (pantrySetOf flourOnly) yeastSubs 0)) = false
  /\ (0 <=? MatchResult.CoveragePct (scoreRecipe bread (pantrySetOf flourOnly) yeastSubs 0))%float
     = true.
Proof.
  apply (coverage_is_a_nonnegative_number bread (pantrySetOf flourOnly) yeastSubs 0).
  vm_compute. reflexivity.
Defined.

Lemma float_zero_div (y : float64) (my : positive) (ey : Z) :
  Prim2SF y = S754_finite false my ey -> (0 / y)%float = 0%float.
Proof.
  intros Hy. apply Prim2SF_inj. rewrite FloatAxioms.div_spec, Hy. reflexivity.
Qed.

Lemma float_div_self (x : float64) (mx : positive) (ex : Z) :
  Prim2SF x = S754_finite false mx ex -> (x / x)%float = 1%float.
Proof.
  intros Hx. apply Prim2SF_inj. rewrite FloatAxioms.div_spec, Hx.
  cbn [SF64div SFdiv xorb]. unfold SF64div, SFdiv, SFdiv_core_binary.
  rewrite !Z.sub_diag.
  change (Z.min (fexp prec emax 0) 0) with (-53).
  change (0 - -53) with 53.
  rewrite Z.shiftl_mul_pow2, Z.mul_comm by lia.
  pose proof (Z.div_mul (2 ^ 53) (Z.pos mx) ltac:(lia)) as Hq.
  pose proof (Z.mod_mul (2 ^ 53) (Z.pos mx) ltac:(lia)) as Hr.
  unfold Z.div, Z.modulo in Hq, Hr.
  destruct (Z.div_eucl (2 ^ 53 * Z.pos mx) (Z.pos mx)) as [q r]. subst q r.
  unfold new_location, new_location_even, new_location_odd.
  destruct (Z.even (Z.pos mx)); vm_compute; reflexivity.
Qed.

(** X2.  When at least one ingredient is required and none is matched, the
    coverage is exactly 0. *)
Theorem coverage_zero_when_nothing_matched
    (recipe : Recipe.t) (pantrySet : gmap string bool)
    (subsMap : gmap string (list IngredientSubstitute.t)) (maxMissing : Z) :
  len (Recipe.Ingredients recipe) < 2 ^ 63 ->
  0 < totalRequiredCount recipe ->
  matchedRequiredCount pantrySet subsMap recipe = 0 ->
  MatchResult.CoveragePct (scoreRecipe recipe pantrySet subsMap maxMissing) = 0%float.
Proof.
  intros Hlen Hpos Hnone. rewrite scoreRecipe_coverage, Hnone.
  pose proof (filter_len_le (fun ing => negb (RecipeIngredient.IsOptional ing))
                (Recipe.Ingredients recipe)) as Hreq.
  fold (required recipe) in Hreq. fold (totalRequiredCount recipe) in Hreq.
  destruct (Z.eqb_spec (totalRequiredCount recipe) 0) as [E|_]; [lia|].
  destruct (float64_of_int_zero_or_finite (totalRequiredCount recipe) ltac:(lia))
    as [[? _]|[_ (mn & en & Hn)]]; [lia|].
  change (float64_of_int 0) with 0%float.
  rewrite (float_zero_div _ mn en Hn). reflexivity.
Qed.

Lemma coverage_zero_when_nothing_matched_witness :
  MatchResult.CoveragePct (scoreRecipe bread ∅ yeastSubs 1) = 0%float.
Proof.
  apply (coverage_zero_when_nothing_matched bread ∅ yeastSubs 1);
    vm_compute; reflexivity.
Defined.

(** X3.  When nothing is missing, the coverage is exactly 100: the quotient
    of a count by itself is exactly 1 in binary64. *)
Theorem coverage_hundred_when_nothing_missing
    (recipe : Recipe.t) (pantrySet : gmap string bool)
    (subsMap : gmap string (list IngredientSubstitute.t)) (maxMissing : Z) :
  len (Recipe.Ingredients recipe) < 2 ^ 63 ->
  MatchResult.MissingIngredients (scoreRecipe recipe pantrySet subsMap maxMissing) = [] ->
  MatchResult.CoveragePct (scoreRecipe recipe pantrySet subsMap maxMissing) = 100%float.
Proof.
  intros Hlen Hnone. rewrite scoreRecipe_coverage.
  destruct (Z.eqb_spec (totalRequiredCount recipe) 0) as [_|Hne]; [reflexivity|].
  assert (Hall : matchedRequiredCount pantrySet subsMap recipe = totalRequiredCount recipe).
  { unfold matchedRequiredCount, totalRequiredCount.
    rewrite (filter_length_split (matchedIng pantrySet subsMap) (required recipe)).
    rewrite scoreRecipe_missing in Hnone. apply map_eq_nil in Hnone.
    rewrite Hnone. unfold len. simpl. lia. }
  rewrite Hall.
  pose proof (filter_len_le (fun ing => negb (RecipeIngredient.IsOptional ing))
                (Recipe.Ingredients recipe)) as Hreq.
  fold (required recipe) in Hreq. fold (totalRequiredCount recipe) in Hreq.
  assert (0 <= totalRequiredCount recipe) by (unfold totalRequiredCount, len; lia).
  destruct (float64_of_int_zero_or_finite (totalRequiredCount recipe) ltac:(lia))
    as [[? _]|[_ (mn & en & Hn)]]; [lia|].
  rewrite (float_div_self _ mn en Hn). reflexivity.
Qed.

Lemma coverage_hundred_when_nothing_missing_witness :
  MatchResult.CoveragePct (scoreRecipe bread (pantrySetOf pantryItems) yeastSubs 0) = 100%float.
Proof.
  apply (coverage_hundred_when_nothing_missing bread (pantrySetOf pantryItems) yeastSubs 0);
    vm_compute; reflexivity.
Defined.

Lemma filter_sublist_bool {A : Type} (f g : A -> bool) (l : list A) :
  (forall x, f x = true -> g x = true) ->
  sublist (List.filter f l) (List.filter g l).
Proof.
  intros Hfg. induction l as [|x l IH]; simpl; [constructor|].
  destruct (f x) eqn:Ef.
  - rewrite (Hfg x Ef). constructor. exact IH.
  - destruct (g x); [constructor|]; exact IH.
Qed.

Lemma map_sublist {A B : Type} (f : A -> B) (l1 l2 : list A) :
  sublist l1 l2 -> sublist (map f l1) (map f l2).
Proof. induction 1; simpl; constructor; assumption. Qed.

Lemma matchedIng_mono (pantrySet pantrySet' : gmap string bool)
    (subsMap subsMap' : gmap string (list IngredientSubstitute.t)) (ing : RecipeIngredient.t) :
  (forall id, index_bool pantrySet id = true -> index_bool pantrySet' id = true) ->
  (forall id sub, In sub (index_slice subsMap id) ->
     exists sub', In sub' (index_slice subsMap' id)
                  /\ IngredientSubstitute.SubstituteID sub' = IngredientSubstitute.SubstituteID sub) ->
  matchedIng pantrySet subsMap ing = true -> matchedIng pantrySet' subsMap' ing = true.
Proof.
  intros Hp Hs. unfold matchedIng, subInPantry. rewrite !orb_true_iff, !existsb_exists.
  intros [H|(sub & Hin & Hsub)]; [left; auto|].
  right. destruct (Hs _ _ Hin) as (sub' & Hin' & Hid).
  exists sub'. split; [exact Hin'|]. rewrite Hid. auto.
Qed.

(** X4.  A larger pantry and longer substitute lists never add to the
    missing list: if every id of the first pantry set is in the second and
    every substitute id listed in the first map is listed in the second, then
    the second missing list is a sublist of the first, the matched count does
    not drop, and a recipe that was makeable stays makeable. *)
Theorem more_on_hand_misses_less
    (recipe : Recipe.t) (pantrySet pantrySet' : gmap string bool)
    (subsMap subsMap' : gmap string (list IngredientSubstitute.t)) (maxMissing : Z) :
  (forall id, index_bool pantrySet id = true -> index_bool pantrySet' id = true) ->
  (forall id sub, In sub (index_slice subsMap id) ->
     exists sub', In sub' (index_slice subsMap' id)
                  /\ IngredientSubstitute.SubstituteID sub' = IngredientSubstitute.SubstituteID sub) ->
  sublist (MatchResult.MissingIngredients (scoreRecipe recipe pantrySet' subsMap' maxMissing))
          (MatchResult.MissingIngredients (scoreRecipe recipe pantrySet subsMap maxMissing))
  /\ matchedRequiredCount pantrySet subsMap recipe
     <= matchedRequiredCount pantrySet' subsMap' recipe
  /\ (MatchResult.CanMake (scoreRecipe recipe pantrySet subsMap maxMissing) = true ->
      MatchResult.CanMake (scoreRecipe recipe pantrySet' subsMap' maxMissing) = true).
Proof.
  intros Hp Hs.
  assert (Hsub : sublist
            (MatchResult.MissingIngredients (scoreRecipe recipe pantrySet' subsMap' maxMissing))
            (MatchResult.MissingIngredients (scoreRecipe recipe pantrySet subsMap maxMissing))).
  { rewrite !scoreRecipe_missing. apply map_sublist, filter_sublist_bool.
    intros ing H. apply negb_true_iff in H. apply negb_true_iff.
    destruct (matchedIng pantrySet subsMap ing) eqn:E; [|reflexivity].
    rewrite (matchedIng_mono _ _ _ _ _ Hp Hs E) in H. discriminate. }
  split; [exact Hsub|]. split.
  - unfold matchedRequiredCount, len. apply inj_le, sublist_length, filter_sublist_bool.
    intros ing. apply matchedIng_mono; assumption.
  - rewrite !scoreRecipe_canMake, !orb_true_iff, !Z.leb_le.
    intros [H|H]; [left; exact H|right].
    apply sublist_length in Hsub. unfold len in *. lia.
Qed.

Lemma more_on_hand_misses_less_witness :
  sublist (MatchResult.MissingIngredients (scoreRecipe bread (pantrySetOf pantryItems) yeastSubs 1))
          (MatchResult.MissingIngredients (scoreRecipe bread (pantrySetOf flourOnly) ∅ 1))
  /\ matchedRequiredCount (pantrySetOf flourOnly) ∅ bread
     <= matchedRequiredCount (pantrySetOf pantryItems) yeastSubs bread
  /\ (MatchResult.CanMake (scoreRecipe bread (pantrySetOf flourOnly) ∅ 1) = true ->
      MatchResult.CanMake (scoreRecipe bread (pantrySetOf pantryItems) yeastSubs 1) = true).
Proof.
  apply (more_on_hand_misses_less bread (pantrySetOf flourOnly) (pantrySetOf pantryItems)
           ∅ yeastSubs 1).
  - intros id. rewrite !pantrySetOf_index, !bool_decide_eq_true. cbn.
    intros H. apply elem_of_cons in H as [->|H]; [apply elem_of_cons; left; reflexivity|].
    apply elem_of_nil in H. destruct H.
  - intros id sub. unfold index_slice. rewrite lookup_empty. intros [].
Defined.

(** ** More on name resolution *)

Lemma seen_fold_lookup (ms : list MissingIngredient.t) (seen : gmap string bool) (id : string) :
  fold_left (fun seen m => <[MissingIngredient.IngredientID m := true]> seen) ms seen !! id
  = if bool_decide (id ∈ map MissingIngredient.IngredientID ms) then Some true else seen !! id.
Proof.
  revert seen. induction ms as [|m ms IH]; intros seen; cbn [fold_left map].
  - reflexivity.
  - rewrite IH. destruct (decide (id = MissingIngredient.IngredientID m)) as [->|Hne].
    + rewrite lookup_insert_eq.
      rewrite (bool_decide_eq_true_2 (_ ∈ _ :: _)) by apply list_elem_of_here.
      case_bool_decide; reflexivity.
    + rewrite lookup_insert_ne by congruence.
      rewrite (bool_decide_ext
                 (id ∈ MissingIngredient.IngredientID m :: map MissingIngredient.IngredientID ms)
                 (id ∈ map MissingIngredient.IngredientID ms)); [reflexivity|].
      rewrite elem_of_cons. tauto.
Qed.

Lemma seenOf_fold_member (results : list MatchResult.t) (seen : gmap string bool)
    (r : MatchResult.t) (m : MissingIngredient.t) :
  In r results -> In m (MatchResult.MissingIngredients r) ->
  fold_left (fun seen r =>
    fold_left (fun seen m => <[MissingIngredient.IngredientID m := true]> seen)
      (MatchResult.MissingIngredients r) seen) results seen
    !! MissingIngredient.IngredientID m = Some true.
Proof.
  revert seen. induction results as [|r0 results IH]; intros seen Hr Hm; [destruct Hr|].
  cbn [fold_left]. destruct Hr as [->|Hr]; [|apply IH; assumption].
  assert (Hgrow : forall (rs : list MatchResult.t) (seen0 : gmap string bool) (id : string),
            seen0 !! id = Some true ->
            fold_left (fun seen r =>
              fold_left (fun seen m => <[MissingIngredient.IngredientID m := true]> seen)
                (MatchResult.MissingIngredients r) seen) rs seen0 !! id = Some true).
  { clear. induction rs as [|r rs IH]; intros seen0 id H; [exact H|].
    cbn [fold_left]. apply IH. rewrite seen_fold_lookup, H.
    case_bool_decide; reflexivity. }
  apply Hgrow. rewrite seen_fold_lookup.
  rewrite bool_decide_eq_true_2; [reflexivity|].
  apply list_elem_of_In, in_map, Hm.
Qed.

Lemma seenOf_member (results : list MatchResult.t) (r : MatchResult.t) (m : MissingIngredient.t) :
  In r results -> In m (MatchResult.MissingIngredients r) ->
  seenOf results !! MissingIngredient.IngredientID m = Some true.
Proof. apply seenOf_fold_member. Qed.

Lemma namesOf_no_missing (d : DictionaryClient) (r : MatchResult.t) :
  MatchResult.MissingIngredients r = [] -> namesOf d r = r.
Proof. destruct r as [recipe c ms cm]. cbn. intros ->. reflexivity. Qed.

(** [resolveNames] is a map over the results: the [seen] set and the name
    map it builds in between do not show. *)
Lemma resolveNames_pointwise (s : Service) (results : list MatchResult.t) :
  resolveNames s results = map (namesOf (dictionary s)) results.
Proof.
  unfold resolveNames. destruct (Z.eqb_spec (Z.of_nat (size (seenOf results))) 0) as [E|_].
  - assert (Hempty : seenOf results = ∅) by (apply map_size_empty_iff; lia).
    symmetry. rewrite <- (map_id results) at 2. apply map_ext_in.
    intros r Hr. apply namesOf_no_missing.
    destruct (MatchResult.MissingIngredients r) as [|m ms] eqn:Em; [reflexivity|].
    pose proof (seenOf_member results r m Hr) as Hm.
    rewrite Em, Hempty, lookup_empty in Hm. specialize (Hm (or_introl eq_refl)).
    discriminate.
  - apply map_ext_in. intros r Hr. unfold setNames, namesOf. f_equal.
    apply map_ext_in. intros m Hm. unfold setName, nameOf, fetchNames.
    rewrite map_lookup_imap, (seenOf_member results r m Hr Hm). cbn.
    destruct (GetIngredient (dictionary s) (MissingIngredient.IngredientID m)) as [[detail|]|err];
      reflexivity.
Qed.

Lemma nameOf_idem (d : DictionaryClient) (m : MissingIngredient.t) :
  nameOf d (nameOf d m) = nameOf d m.
Proof.
  unfold nameOf.
  destruct (GetIngredient d (MissingIngredient.IngredientID m)) as [[detail|]|err] eqn:E;
    cbn [MissingIngredient.IngredientID]; rewrite ?E; reflexivity.
Qed.

(** X5.  Resolving a list of results is resolving its parts: the batching
    of the lookups over all results, and the early return when nothing is
    missing, make no difference to any single result. *)
Theorem resolveNames_app (s : Service) (results1 results2 : list MatchResult.t) :
  resolveNames s (results1 ++ results2) = resolveNames s results1 ++ resolveNames s results2.
Proof. rewrite !resolveNames_pointwise. apply map_app. Qed.

(** X6.  After [resolveNames], every missing record whose id the dictionary
    answers a detail for carries that detail's name, in every result the id
    occurs in. *)
Theorem resolveNames_sets_answered_names (s : Service) (results : list MatchResult.t)
    (i j : nat) (r' : MatchResult.t) (m' : MissingIngredient.t) (detail : IngredientDetail.t) :
  resolveNames s results !! i = Some r' ->
  MatchResult.MissingIngredients r' !! j = Some m' ->
  GetIngredient (dictionary s) (MissingIngredient.IngredientID m') = Fetched (Some detail) ->
  MissingIngredient.Name m' = IngredientDetail.Name detail.
Proof.
  rewrite resolveNames_pointwise. intros Hr' Hm' Hdetail.
  change (map ?f results) with (f <$> results) in Hr'.
  rewrite list_lookup_fmap in Hr'.
  destruct (results !! i) as [r|]; [|discriminate]. injection Hr' as <-.
  cbn [namesOf MatchResult.MissingIngredients] in Hm'.
  change (map ?f ?l) with (f <$> l) in Hm'. rewrite list_lookup_fmap in Hm'.
  destruct (MatchResult.MissingIngredients r !! j) as [m|]; [|discriminate].
  injection Hm' as <-. revert Hdetail. unfold nameOf.
  destruct (GetIngredient (dictionary s) (MissingIngredient.IngredientID m)) as [[d0|]|err] eqn:E;
    cbn [MissingIngredient.IngredientID MissingIngredient.Name]; rewrite E; intros H;
    try discriminate.
  injection H as ->. reflexivity.
Qed.

Lemma resolveNames_sets_answered_names_witness :
  exists (r' : MatchResult.t) (m' : MissingIngredient.t),
    resolveNames sampleService sampleResults !! 3%nat = Some r'
    /\ MatchResult.MissingIngredients r' !! 1%nat = Some m'
    /\ MissingIngredient.Name m' = "Yeast"%string.
Proof.
  eexists. eexists.
  split; [vm_compute; reflexivity|].
  split; [vm_compute; reflexivity|].
  eapply (resolveNames_sets_answered_names sampleService sampleResults 3 1 _ _
            {| IngredientDetail.ID := "yeast"; IngredientDetail.Name := "Yeast" |}).
  - vm_compute. reflexivity.
  - vm_compute. reflexivity.
  - vm_compute. reflexivity.
Defined.

(** X7.  [resolveNames] is idempotent: a second pass over its own output
    changes nothing. *)
Theorem resolveNames_idempotent (s : Service) (results : list MatchResult.t) :
  resolveNames s (resolveNames s results) = resolveNames s results.
Proof.
  rewrite !resolveNames_pointwise, map_map. apply map_ext. intros r.
  unfold namesOf. cbn. f_equal. rewrite map_map. apply map_ext, nameOf_idem.
Qed.

(** ** More on the orchestrator *)

Lemma missingIDs_inner_lookup (pantrySet : gmap string bool) (ings : list RecipeIngredient.t)
    (m : gmap string bool) (id : string) :
  fold_left (fun missingIDs ing =>
      if negb (RecipeIngredient.IsOptional ing)
         && negb (index_bool pantrySet (RecipeIngredient.IngredientID ing))
      then <[RecipeIngredient.IngredientID ing := true]> missingIDs
      else missingIDs) ings m !! id
  = if bool_decide
         (id ∈ map RecipeIngredient.IngredientID
                 (List.filter (fun ing =>
                    negb (RecipeIngredient.IsOptional ing)
                    && negb (index_bool pantrySet (RecipeIngredient.IngredientID ing))) ings))
    then Some true else m !! id.
Proof.
  revert m. induction ings as [|ing ings IH]; intros m; cbn [fold_left List.filter].
  - reflexivity.
  - rewrite IH.
    destruct (negb (RecipeIngredient.IsOptional ing)
              && negb (index_bool pantrySet (RecipeIngredient.IngredientID ing)));
      [|reflexivity].
    cbn [map]. destruct (decide (id = RecipeIngredient.IngredientID ing)) as [->|Hne].
    + rewrite lookup_insert_eq.
      rewrite (bool_decide_eq_true_2 (_ ∈ _ :: _)) by apply list_elem_of_here.
      case_bool_decide; reflexivity.
    + rewrite lookup_insert_ne by congruence.
      apply (f_equal (fun b : bool => if b then Some true else m !! id)).
      apply bool_decide_ext. rewrite elem_of_cons. tauto.
Qed.

Lemma missingIDs_outer_lookup (pantrySet : gmap string bool) (recipes : list Recipe.t)
    (m : gmap string bool) (id : string) :
  fold_left (fun missingIDs recipe =>
    fold_left (fun missingIDs ing =>
      if negb (RecipeIngredient.IsOptional ing)
         && negb (index_bool pantrySet (RecipeIngredient.IngredientID ing))
      then <[RecipeIngredient.IngredientID ing := true]> missingIDs
      else missingIDs)
      (Recipe.Ingredients recipe) missingIDs) recipes m !! id
  = if bool_decide (id ∈ neededIDs pantrySet recipes) then Some true else m !! id.
Proof.
  revert m. induction recipes as [|recipe recipes IH]; intros m; cbn [fold_left neededIDs flat_map].
  - reflexivity.
  - rewrite IH, missingIDs_inner_lookup. unfold required. rewrite filter_filter_andb.
    fold (neededIDs pantrySet recipes).
    repeat case_bool_decide; try reflexivity;
      match goal with
      | H : ¬ _ ∈ _ ++ _ |- _ => exfalso; apply H; apply elem_of_app; auto
      | H : _ ∈ _ ++ _ |- _ => apply elem_of_app in H as [?|?]; contradiction
      end.
Qed.

Lemma missingIDsOf_lookup (pantrySet : gmap string bool) (recipes : list Recipe.t) (id : string) :
  missingIDsOf pantrySet recipes !! id
  = if bool_decide (id ∈ neededIDs pantrySet recipes) then Some true else None.
Proof. unfold missingIDsOf. rewrite missingIDs_outer_lookup, lookup_empty. reflexivity. Qed.

Lemma neededIDs_member (pantrySet : gmap string bool) (recipes : list Recipe.t)
    (recipe : Recipe.t) (ing : RecipeIngredient.t) :
  In recipe recipes -> In ing (required recipe) ->
  index_bool pantrySet (RecipeIngredient.IngredientID ing) = false ->
  RecipeIngredient.IngredientID ing ∈ neededIDs pantrySet recipes.
Proof.
  intros Hrecipe Hing Hout. apply list_elem_of_In. unfold neededIDs.
  apply in_flat_map. exists recipe. split; [exact Hrecipe|].
  apply in_map. apply List.filter_In. split; [exact Hing|]. rewrite Hout. reflexivity.
Qed.

(** X8.  With substitutes allowed, the substitute map [Score] scores with
    has an entry exactly for the ids that some recipe requires, that are not
    in the pantry set, and whose lookup answered a non-nil list without error;
    the entry is that list.  No other id is looked up. *)
Theorem prefetch_entries (d : DictionaryClient) (pantrySet : gmap string bool)
    (recipes : list Recipe.t) (id : string) :
  prefetchSubs d (missingIDsOf pantrySet recipes) !! id
  = if bool_decide (id ∈ neededIDs pantrySet recipes)
    then match GetSubstitutes d id with
         | Fetched (Some subs) => Some subs
         | _ => None
         end
    else None.
Proof.
  unfold prefetchSubs. rewrite map_lookup_imap, missingIDsOf_lookup.
  case_bool_decide; [|reflexivity]. cbn.
  destruct (GetSubstitutes d id) as [[subs|]|err]; reflexivity.
Qed.

Lemma scoreRecipe_ext_in (recipe : Recipe.t) (pantrySet : gmap string bool)
    (subsMap subsMap' : gmap string (list IngredientSubstitute.t)) (maxMissing : Z) :
  (forall ing, In ing (required recipe) ->
     matchedIng pantrySet subsMap' ing = matchedIng pantrySet subsMap ing) ->
  scoreRecipe recipe pantrySet subsMap' maxMissing
  = scoreRecipe recipe pantrySet subsMap maxMissing.
Proof.
  intros Hext. unfold scoreRecipe.
  destruct (len (required recipe) =? 0); [reflexivity|].
  rewrite !scoreLoop_spec.
  rewrite (List.filter_ext_in _ _ _ Hext).
  rewrite (List.filter_ext_in (fun ing => negb (matchedIng pantrySet subsMap' ing))
             (fun ing => negb (matchedIng pantrySet subsMap ing)))
    by (intros ing Hing; rewrite (Hext ing Hing); reflexivity).
  reflexivity.
Qed.

Lemma prefetch_matchedIng (d : DictionaryClient) (pantrySet : gmap string bool)
    (recipes : list Recipe.t) (recipe : Recipe.t) (ing : RecipeIngredient.t) :
  In recipe recipes -> In ing (required recipe) ->
  matchedIng pantrySet (prefetchSubs d (missingIDsOf pantrySet recipes)) ing
  = index_bool pantrySet (RecipeIngredient.IngredientID ing)
    || existsb (fun sub => index_bool pantrySet (IngredientSubstitute.SubstituteID sub))
         (answeredSubs d (RecipeIngredient.IngredientID ing)).
Proof.
  intros Hrecipe Hing. unfold matchedIng.
  destruct (index_bool pantrySet (RecipeIngredient.IngredientID ing)) eqn:E; [reflexivity|].
  cbn [orb]. unfold subInPantry, index_slice, answeredSubs, prefetchSubs.
  rewrite map_lookup_imap, missingIDsOf_lookup.
  rewrite bool_decide_eq_true_2 by (eapply neededIDs_member; eassumption). cbn.
  destruct (GetSubstitutes d (RecipeIngredient.IngredientID ing)) as [[subs|]|err]; reflexivity.
Qed.

Lemma Score_fetched (s : Service) (allowSubs : bool) (maxMissing : Z)
    (items : list PantryItem.t) (catalog : list Recipe.t) :
  GetPantry (pantry s) = Fetched items ->
  GetRecipes (recipes s) = Fetched catalog ->
  Score s allowSubs maxMissing
  = (Some (map (namesOf (dictionary s))
             (rankAndFilter
                (map (fun recipe =>
                        scoreRecipe recipe (pantrySetOf items)
                          (subsMapOf (dictionary s) allowSubs (pantrySetOf items) catalog)
                          maxMissing) catalog))),
     None).
Proof.
  intros Hp Hr. unfold Score. rewrite Hp, Hr, resolveNames_pointwise. reflexivity.
Qed.

(** X9.  Looking substitutes up only for the ids that are required and
    absent loses nothing: every recipe of the catalog scores with the
    prefetched map as it does with any map that holds, for each id, all the
    substitutes a lookup of that id answers. *)
Theorem prefetch_scores_as_full_lookup (d : DictionaryClient) (pantrySet : gmap string bool)
    (catalog : list Recipe.t) (recipe : Recipe.t) (maxMissing : Z)
    (full : gmap string (list IngredientSubstitute.t)) :
  In recipe catalog ->
  (forall id, index_slice full id = answeredSubs d id) ->
  scoreRecipe recipe pantrySet (prefetchSubs d (missingIDsOf pantrySet catalog)) maxMissing
  = scoreRecipe recipe pantrySet full maxMissing.
Proof.
  intros Hrecipe Hfull. apply scoreRecipe_ext_in. intros ing Hing.
  rewrite (prefetch_matchedIng d pantrySet catalog recipe ing Hrecipe Hing).
  unfold matchedIng, subInPantry. rewrite Hfull. reflexivity.
Qed.

Lemma prefetch_scores_as_full_lookup_witness :
  scoreRecipe bread (pantrySetOf flourOnly)
    (prefetchSubs sampleDictionary
       (missingIDsOf (pantrySetOf flourOnly) [bread; garnish; flatbread; doubleYeast])) 1
  = scoreRecipe bread (pantrySetOf flourOnly)
      {[ "yeast"%string := [sampleSub "yeast" "soda" 1%float "";
                            sampleSub "yeast" "flour" 3%float "sourdough"] ]} 1.
Proof.
  apply (prefetch_scores_as_full_lookup sampleDictionary (pantrySetOf flourOnly)
           [bread; garnish; flatbread; doubleYeast] bread 1).
  - left. reflexivity.
  - intros id. unfold index_slice, answeredSubs. cbn [sampleDictionary GetSubstitutes].
    destruct (String.eqb_spec id "yeast") as [->|Hne].
    + reflexivity.
    + rewrite lookup_singleton_ne by congruence.
      destruct (String.eqb id "water"); reflexivity.
Defined.

Lemma withoutNames_namesOf (d : DictionaryClient) (r : MatchResult.t) :
  withoutNames (namesOf d r) = withoutNames r.
Proof.
  unfold withoutNames, namesOf. cbn. f_equal. rewrite map_map. apply map_ext.
  intros m. unfold nameOf. destruct (GetIngredient d _) as [[detail|]|err]; reflexivity.
Qed.

Lemma withoutNames_scoreRecipe (recipe : Recipe.t) (pantrySet : gmap string bool)
    (subsMap : gmap string (list IngredientSubstitute.t)) (maxMissing : Z) :
  withoutNames (scoreRecipe recipe pantrySet subsMap maxMissing)
  = scoreRecipe recipe pantrySet subsMap maxMissing.
Proof.
  assert (H : map withoutName
                (MatchResult.MissingIngredients (scoreRecipe recipe pantrySet subsMap maxMissing))
              = MatchResult.MissingIngredients (scoreRecipe recipe pantrySet subsMap maxMissing)).
  { rewrite scoreRecipe_missing, map_map. apply map_ext. reflexivity. }
  unfold withoutNames. rewrite H.
  destruct (scoreRecipe recipe pantrySet subsMap maxMissing). reflexivity.
Qed.

Lemma map_id_in {A : Type} (f : A -> A) (l : list A) :
  (forall x, In x l -> f x = x) -> map f l = l.
Proof.
  intros H. rewrite <- (map_id l) at 2. apply map_ext_in. exact H.
Qed.

(** X10.  When both fetches succeed (on slices Go can hold), [Score]
    returns, without error, results that are all makeable; names apart, they
    are the makeable scores of the catalog, each as often as it occurs; and
    for [A] before [B] in the output either [A.CoveragePct > B.CoveragePct],
    or the coverages are equal and [A] misses at most as many ingredients as
    [B]. *)
Theorem Score_returns_makeable_ranked (s : Service) (allowSubs : bool) (maxMissing : Z)
    (items : list PantryItem.t) (catalog : list Recipe.t) :
  GetPantry (pantry s) = Fetched items ->
  GetRecipes (recipes s) = Fetched catalog ->
  Forall (fun recipe => len (Recipe.Ingredients recipe) < 2 ^ 63) catalog ->
  exists out,
    Score s allowSubs maxMissing = (Some out, None)
    /\ Forall (fun r => MatchResult.CanMake r = true) out
    /\ Permutation (map withoutNames out)
         (List.filter MatchResult.CanMake
            (map (fun recipe =>
                    scoreRecipe recipe (pantrySetOf items)
                      (subsMapOf (dictionary s) allowSubs (pantrySetOf items) catalog)
                      maxMissing) catalog))
    /\ forall (i j : nat) (A B : MatchResult.t),
         (i < j)%nat -> out !! i = Some A -> out !! j = Some B ->
         (MatchResult.CoveragePct B <? MatchResult.CoveragePct A)%float = true
         \/ ((MatchResult.CoveragePct A =? MatchResult.CoveragePct B)%float = true
             /\ len (MatchResult.MissingIngredients A)
                <= len (MatchResult.MissingIngredients B)).
Proof.
  intros Hp Hr Hlen. eexists. split; [apply Score_fetched; eassumption|].
  set (scores := map _ catalog).
  assert (Hnum : Forall numericCoverage scores) by (apply Score_results_scored; exact Hlen).
  destruct (filter_sorted_law scores (sortSlice lessResult scores) Hnum
              (sortSlice_perm lessResult scores)
              (sortSlice_sorted lessResult numericCoverage lessResult_asym
                 lessResult_negtrans scores Hnum))
    as (Hperm & Hmake & Hrank).
  fold (rankAndFilter scores) in Hperm, Hmake, Hrank.
  split; [|split].
  - apply Forall_map. eapply Forall_impl; [exact Hmake|]. intros r Hr'. exact Hr'.
  - rewrite map_map.
    rewrite (map_ext _ withoutNames (withoutNames_namesOf (dictionary s))).
    rewrite Hperm. rewrite map_id_in; [reflexivity|].
    intros r Hin. apply List.filter_In in Hin as [Hin _].
    subst scores. apply in_map_iff in Hin as (recipe & <- & _).
    apply withoutNames_scoreRecipe.
  - intros i j A B Hij HA HB.
    change (map ?f ?l) with (f <$> l) in HA, HB.
    rewrite list_lookup_fmap in HA, HB.
    destruct (rankAndFilter scores !! i) as [A0|] eqn:EA; [|discriminate].
    destruct (rankAndFilter scores !! j) as [B0|] eqn:EB; [|discriminate].
    injection HA as <-. injection HB as <-.
    cbn [namesOf MatchResult.CoveragePct MatchResult.MissingIngredients].
    unfold len. rewrite !length_map. apply (Hrank i j A0 B0 Hij EA EB).
Qed.

Lemma Score_returns_makeable_ranked_witness :
  exists out,
    Score sampleService true 2 = (Some out, None)
    /\ Forall (fun r => MatchResult.CanMake r = true) out
    /\ Permutation (map withoutNames out)
         (List.filter MatchResult.CanMake
            (map (fun recipe =>
                    scoreRecipe recipe (pantrySetOf flourOnly)
                      (subsMapOf (dictionary sampleService) true (pantrySetOf flourOnly)
                         [bread; garnish; flatbread; doubleYeast])
                      2) [bread; garnish; flatbread; doubleYeast]))
    /\ forall (i j : nat) (A B : MatchResult.t),
         (i < j)%nat -> out !! i = Some A -> out !! j = Some B ->
         (MatchResult.CoveragePct B <? MatchResult.CoveragePct A)%float = true
         \/ ((MatchResult.CoveragePct A =? MatchResult.CoveragePct B)%float = true
             /\ len (MatchResult.MissingIngredients A)
                <= len (MatchResult.MissingIngredients B)).
Proof.
  apply (Score_returns_makeable_ranked sampleService true 2 flourOnly
           [bread; garnish; flatbread; doubleYeast]).
  - reflexivity.
  - reflexivity.
  - repeat constructor.
Defined.

(** *** The tolerance *)

Lemma insertLeft_map {A B : Type} (f : A -> B) (less : B -> B -> bool) (x : A) (l : list A) :
  insertLeft less (f x) (map f l) = map f (insertLeft (fun a b => less (f a) (f b)) x l).
Proof.
  induction l as [|y l IH]; cbn [insertLeft map]; [reflexivity|].
  destruct (less (f x) (f y)); cbn [map]; [rewrite IH|]; reflexivity.
Qed.

Lemma sortSlice_map {A B : Type} (f : A -> B) (less : B -> B -> bool) (l : list A) :
  sortSlice less (map f l) = map f (sortSlice (fun a b => less (f a) (f b)) l).
Proof.
  unfold sortSlice. rewrite map_rev. f_equal.
  change (@nil B) with (map f []). generalize (@nil A).
  induction l as [|x l IH]; intros acc; cbn [fold_left map]; [reflexivity|].
  rewrite insertLeft_map. apply IH.
Qed.

Lemma insertLeft_ext {A : Type} (less less' : A -> A -> bool) (x : A) (l : list A) :
  (forall a b, less a b = less' a b) -> insertLeft less x l = insertLeft less' x l.
Proof.
  intros H. induction l as [|y l IH]; cbn [insertLeft]; [reflexivity|].
  rewrite H, IH. reflexivity.
Qed.

Lemma sortSlice_ext {A : Type} (less less' : A -> A -> bool) (l : list A) :
  (forall a b, less a b = less' a b) -> sortSlice less l = sortSlice less' l.
Proof.
  intros H. unfold sortSlice. f_equal. generalize (@nil A).
  induction l as [|x l IH]; intros acc; cbn [fold_left]; [reflexivity|].
  rewrite (insertLeft_ext less less' x acc H). apply IH.
Qed.

Lemma scoreRecipe_tolerance (recipe : Recipe.t) (pantrySet : gmap string bool)
    (subsMap : gmap string (list IngredientSubstitute.t)) (maxMissing maxMissing' : Z) :
  MatchResult.Recipe (scoreRecipe recipe pantrySet subsMap maxMissing')
    = MatchResult.Recipe (scoreRecipe recipe pantrySet subsMap maxMissing)
  /\ MatchResult.CoveragePct (scoreRecipe recipe pantrySet subsMap maxMissing')
     = MatchResult.CoveragePct (scoreRecipe recipe pantrySet subsMap maxMissing)
  /\ MatchResult.MissingIngredients (scoreRecipe recipe pantrySet subsMap maxMissing')
     = MatchResult.MissingIngredients (scoreRecipe recipe pantrySet subsMap maxMissing).
Proof.
  unfold scoreRecipe. destruct (len (required recipe) =? 0); [repeat split|].
  destruct (scoreLoop pantrySet subsMap (required recipe) ([], 0)). repeat split.
Qed.

Lemma scoreRecipe_raise (recipe : Recipe.t) (pantrySet : gmap string bool)
    (subsMap : gmap string (list IngredientSubstitute.t)) (maxMissing maxMissing' : Z) :
  maxMissing <= maxMissing' ->
  MatchResult.CanMake (scoreRecipe recipe pantrySet subsMap maxMissing) = true ->
  scoreRecipe recipe pantrySet subsMap maxMissing'
  = scoreRecipe recipe pantrySet subsMap maxMissing.
Proof.
  intros Hle. unfold scoreRecipe. destruct (len (required recipe) =? 0); [reflexivity|].
  destruct (scoreLoop pantrySet subsMap (required recipe) ([], 0)) as [missing matched].
  cbn [MatchResult.CanMake]. intros H. f_equal. rewrite H.
  apply Z.leb_le. apply Z.leb_le in H. lia.
Qed.

(** X11.  Raising the tolerance only adds results: for [maxMissing <=
    maxMissing'], what [Score] returns for [maxMissing] is a sublist of what
    it returns for [maxMissing'], the shared results identical and in the
    same order. *)
Theorem Score_tolerance_monotone (s : Service) (allowSubs : bool) (maxMissing maxMissing' : Z)
    (out out' : list MatchResult.t) (err err' : option string) :
  maxMissing <= maxMissing' ->
  Score s allowSubs maxMissing = (Some out, err) ->
  Score s allowSubs maxMissing' = (Some out', err') ->
  sublist out out'.
Proof.
  intros Hle. unfold Score.
  destruct (GetPantry (pantry s)) as [items|e]; [|discriminate].
  destruct (GetRecipes (recipes s)) as [catalog|e]; [|discriminate].
  rewrite !resolveNames_pointwise. intros [= <- _] [= <- _].
  apply map_sublist. unfold rankAndFilter.
  set (ps := pantrySetOf items).
  set (sm := if allowSubs then _ else _).
  rewrite (sortSlice_map (fun recipe => scoreRecipe recipe ps sm maxMissing) lessResult).
  rewrite (sortSlice_map (fun recipe => scoreRecipe recipe ps sm maxMissing') lessResult).
  rewrite (sortSlice_ext
             (fun a b => lessResult (scoreRecipe a ps sm maxMissing')
                           (scoreRecipe b ps sm maxMissing'))
             (fun a b => lessResult (scoreRecipe a ps sm maxMissing)
                           (scoreRecipe b ps sm maxMissing))).
  2:{ intros a b. unfold lessResult.
      destruct (scoreRecipe_tolerance a ps sm maxMissing maxMissing') as (_ & -> & ->).
      destruct (scoreRecipe_tolerance b ps sm maxMissing maxMissing') as (_ & -> & ->).
      reflexivity. }
  induction (sortSlice _ catalog) as [|recipe sorted IH]; cbn [map List.filter]; [constructor|].
  destruct (MatchResult.CanMake (scoreRecipe recipe ps sm maxMissing)) eqn:E.
  - rewrite (scoreRecipe_raise recipe ps sm maxMissing maxMissing' Hle E), E.
    constructor. exact IH.
  - destruct (MatchResult.CanMake (scoreRecipe recipe ps sm maxMissing'));
      [constructor|]; exact IH.
Qed.

Lemma Score_tolerance_monotone_witness :
  exists out out',
    Score sampleService false 0 = (Some out, None)
    /\ Score sampleService false 2 = (Some out', None)
    /\ length out = 2%nat /\ length out' = 4%nat
    /\ sublist out out'.
Proof.
  eexists. eexists.
  split; [vm_compute; reflexivity|].
  split; [vm_compute; reflexivity|].
  split; [reflexivity|]. split; [reflexivity|].
  eapply (Score_tolerance_monotone sampleService false 0 2 _ _ None None).
  - lia.
  - vm_compute. reflexivity.
  - vm_compute. reflexivity.
Defined.

(** *** The pantry listing and the dictionary *)

Lemma pantrySetOf_same_ids (items items' : list PantryItem.t) :
  (forall id, In id (map PantryItem.IngredientID items)
              <-> In id (map PantryItem.IngredientID items')) ->
  pantrySetOf items = pantrySetOf items'.
Proof.
  intros Hids. apply map_eq. intros id. unfold pantrySetOf.
  rewrite !pantrySetOf_fold_lookup.
  rewrite (bool_decide_ext (id ∈ map PantryItem.IngredientID items)
             (id ∈ map PantryItem.IngredientID items')); [reflexivity|].
  rewrite !list_elem_of_In. apply Hids.
Qed.

(** X12.  The order of the pantry items, their repetitions and their
    quantities and units are irrelevant: two services that differ only in
    pantry listings with the same ingredient ids get the same answer from
    [Score]. *)
Theorem Score_pantry_listing_irrelevant (s s' : Service) (allowSubs : bool) (maxMissing : Z)
    (items items' : list PantryItem.t) :
  GetPantry (pantry s) = Fetched items ->
  GetPantry (pantry s') = Fetched items' ->
  recipes s' = recipes s ->
  dictionary s' = dictionary s ->
  (forall id, In id (map PantryItem.IngredientID items)
              <-> In id (map PantryItem.IngredientID items')) ->
  Score s' allowSubs maxMissing = Score s allowSubs maxMissing.
Proof.
  intros Hp Hp' Hr Hd Hids. unfold Score.
  rewrite Hp, Hp', Hr, Hd, (pantrySetOf_same_ids items items' Hids).
  destruct (GetRecipes (recipes s)) as [catalog|err]; [|reflexivity].
  rewrite !resolveNames_pointwise, Hd. reflexivity.
Qed.

Lemma Score_pantry_listing_irrelevant_witness :
  Score {| pantry := {| GetPantry :=
                          Fetched [sampleItem "water" 2%float; sampleItem "flour" 1%float;
                                   sampleItem "water" 0%float] |};
           recipes := recipes sampleService;
           dictionary := sampleDictionary |} true 1
  = Score {| pantry := {| GetPantry := Fetched pantryItems |};
             recipes := recipes sampleService;
             dictionary := sampleDictionary |} true 1.
Proof.
  apply (Score_pantry_listing_irrelevant _ _ true 1 pantryItems
           [sampleItem "water" 2%float; sampleItem "flour" 1%float; sampleItem "water" 0%float]).
  - reflexivity.
  - reflexivity.
  - reflexivity.
  - reflexivity.
  - intros id. cbn. tauto.
Defined.

Lemma namesOf_ext (d d' : DictionaryClient) (r : MatchResult.t) :
  (forall id, GetIngredient d' id = GetIngredient d id) -> namesOf d' r = namesOf d r.
Proof.
  intros H. unfold namesOf. f_equal. apply map_ext. intros m. unfold nameOf.
  rewrite H. reflexivity.
Qed.

(** X13.  Without [allowSubs], [Score] makes no use of substitute lookups:
    its answer is the same under any dictionary that answers the name lookups
    alike, whatever it answers for substitutes. *)
Theorem Score_without_subs_ignores_substitutes (s : Service) (d' : DictionaryClient)
    (maxMissing : Z) :
  (forall id, GetIngredient d' id = GetIngredient (dictionary s) id) ->
  Score {| pantry := pantry s; recipes := recipes s; dictionary := d' |} false maxMissing
  = Score s false maxMissing.
Proof.
  intros Hnames. unfold Score. cbn [pantry recipes dictionary].
  destruct (GetPantry (pantry s)) as [items|err]; [|reflexivity].
  destruct (GetRecipes (recipes s)) as [catalog|err]; [|reflexivity].
  rewrite !resolveNames_pointwise. cbn [dictionary].
  f_equal. f_equal. apply map_ext. intros r. apply namesOf_ext. exact Hnames.
Qed.

Lemma Score_without_subs_ignores_substitutes_witness :
  Score {| pantry := pantry sampleService; recipes := recipes sampleService;
           dictionary := {| GetIngredient := GetIngredient sampleDictionary;
                            GetSubstitutes := fun _ => Failed "down" |} |} false 1
  = Score sampleService false 1.
Proof.
  apply (Score_without_subs_ignores_substitutes sampleService
           {| GetIngredient := GetIngredient sampleDictionary;
              GetSubstitutes := fun _ => Failed "down" |} 1).
  intros id. reflexivity.
Defined.

Lemma Score_no_substitute_answers (s : Service) (maxMissing : Z) :
  (forall id, noAnswer (GetSubstitutes (dictionary s) id)) ->
  Score s true maxMissing = Score s false maxMissing.
Proof.
  intros Hno. unfold Score.
  destruct (GetPantry (pantry s)) as [items|err]; [|reflexivity].
  destruct (GetRecipes (recipes s)) as [catalog|err]; [|reflexivity].
  assert (Hempty : prefetchSubs (dictionary s) (missingIDsOf (pantrySetOf items) catalog) = ∅).
  { apply map_eq. intros id. rewrite lookup_empty. apply prefetchSubs_noAnswer, Hno. }
  rewrite Hempty. reflexivity.
Qed.

(** ** The handlers *)

Lemma respond_cases (svc : Service) (allowSubs : bool) (maxMissing : Z) :
  (exists err, (failed (GetPantry (pantry svc)) \/ failed (GetRecipes (recipes svc)))
               /\ respond svc allowSubs maxMissing
                  = jsonError (String.append "scoring failed: " err) StatusBadGateway)
  \/ (exists results, ~ failed (GetPantry (pantry svc)) /\ ~ failed (GetRecipes (recipes svc))
                      /\ respond svc allowSubs maxMissing = jsonOK (Some results)).
Proof.
  unfold respond, Score, failed.
  destruct (GetPantry (pantry svc)) as [items|e]; [|left; eauto].
  destruct (GetRecipes (recipes svc)) as [catalog|e]; [|left; eauto].
  right. eexists. split; [|split; [|reflexivity]]; intros [? ?]; discriminate.
Qed.

(** X14.  The answers of both handlers are of three kinds only: status 400
    for a request they reject, status 502 when [Score] fails (which needs the
    pantry or the recipe fetch to fail), and otherwise [jsonOK] with a slice
    that is not [nil] (the body is a JSON array, never [null]). *)
Theorem handlers_answer_400_502_or_results (svc : Service)
    (allow_subs max_missing : string) (body : option matchQueryRequest) (answer : Response) :
  answer = handleGetMatches svc allow_subs max_missing
  \/ answer = handlePostMatchQuery svc body ->
  (exists msg, answer = jsonError msg StatusBadRequest)
  \/ (exists msg, answer = jsonError msg StatusBadGateway
                  /\ (failed (GetPantry (pantry svc)) \/ failed (GetRecipes (recipes svc))))
  \/ (exists results, answer = jsonOK (Some results)
                      /\ ~ failed (GetPantry (pantry svc))
                      /\ ~ failed (GetRecipes (recipes svc))).
Proof.
  assert (Hrespond : forall allowSubs maxMissing,
            (exists msg, respond svc allowSubs maxMissing = jsonError msg StatusBadGateway
                         /\ (failed (GetPantry (pantry svc))
                             \/ failed (GetRecipes (recipes svc))))
            \/ (exists results, respond svc allowSubs maxMissing = jsonOK (Some results)
                                /\ ~ failed (GetPantry (pantry svc))
                                /\ ~ failed (GetRecipes (recipes svc)))).
  { intros allowSubs maxMissing.
    destruct (respond_cases svc allowSubs maxMissing)
      as [(err & Hfail & ->)|(results & Hp & Hr & ->)]; [left|right]; eauto. }
  intros [->| ->].
  - unfold handleGetMatches.
    destruct (String.eqb max_missing ""); [right; apply Hrespond|].
    destruct (Atoi max_missing) as [n|]; [|left; eauto].
    destruct (n <? 0); [left; eauto|right; apply Hrespond].
  - unfold handlePostMatchQuery. destruct body as [req|]; [right; apply Hrespond|left; eauto].
Qed.

Lemma handlers_answer_400_502_or_results_witness :
  (exists msg, handleGetMatches recipesDown "true" "1" = jsonError msg StatusBadRequest)
  \/ (exists msg, handleGetMatches recipesDown "true" "1" = jsonError msg StatusBadGateway
                  /\ (failed (GetPantry (pantry recipesDown))
                      \/ failed (GetRecipes (recipes recipesDown))))
  \/ (exists results, handleGetMatches recipesDown "true" "1" = jsonOK (Some results)
                      /\ ~ failed (GetPantry (pantry recipesDown))
                      /\ ~ failed (GetRecipes (recipes recipesDown))).
Proof.
  apply (handlers_answer_400_502_or_results recipesDown "true" "1" None).
  left. reflexivity.
Defined.

(** X15.  [handleGetMatches] reads its parameters strictly: an absent
    [max_missing] is answered as [max_missing=0], and any [allow_subs] other
    than the exact text [true] is answered as an absent one. *)
Theorem handleGetMatches_defaults (svc : Service) (allow_subs max_missing : string) :
  allow_subs <> "true"%string ->
  handleGetMatches svc allow_subs "" = handleGetMatches svc "" "0"
  /\ handleGetMatches svc allow_subs max_missing = handleGetMatches svc "" max_missing.
Proof.
  intros Hne. apply String.eqb_neq in Hne. unfold handleGetMatches. rewrite Hne.
  split; reflexivity.
Qed.

Lemma handleGetMatches_defaults_witness :
  handleGetMatches sampleService "TRUE" "" = handleGetMatches sampleService "" "0"
  /\ handleGetMatches sampleService "TRUE" "2" = handleGetMatches sampleService "" "2".
Proof.
  apply (handleGetMatches_defaults sampleService "TRUE" "2"). discriminate.
Defined.

(** X16.  [handlePostMatchQuery] ignores [prompt] and [pantry_constrained]
    and never allows substitutes: it answers a body as [handleGetMatches]
    answers a request without [allow_subs] whose [max_missing] reads as the
    body's [max_missing], negative values taken as 0. *)
Theorem post_answers_as_get_without_subs (svc : Service) (req : matchQueryRequest)
    (max_missing : string) :
  max_missing <> ""%string ->
  Atoi max_missing = Some (Z.max 0 (MaxMissing req)) ->
  handlePostMatchQuery svc (Some req) = handleGetMatches svc "" max_missing.
Proof.
  intros Hne Hparse. apply String.eqb_neq in Hne.
  unfold handlePostMatchQuery, handleGetMatches. rewrite Hne, Hparse.
  cbn [String.eqb].
  destruct (Z.ltb_spec (Z.max 0 (MaxMissing req)) 0) as [H|_]; [lia|].
  f_equal. destruct (Z.ltb_spec (MaxMissing req) 0); lia.
Qed.

Lemma post_answers_as_get_without_subs_witness :
  handlePostMatchQuery sampleService
    (Some {| Prompt := "something spicy"; PantryConstrained := true; MaxMissing := -3 |})
  = handleGetMatches sampleService "" "0".
Proof.
  apply (post_answers_as_get_without_subs sampleService
           {| Prompt := "something spicy"; PantryConstrained := true; MaxMissing := -3 |} "0").
  - discriminate.
  - vm_compute. reflexivity.
Defined.

(** ** The clients over HTTP, composed with the service *)

(** X17.  A dictionary without the substitutes endpoint (status 404 or 405
    on every substitutes URL) makes [allow_subs] a no-op: [Score] with
    substitutes allowed answers as [Score] without. *)
Theorem substitutes_endpoint_absent_is_no_subs (json : transport.Json)
    (pc : transport.PantryClient.t) (rc : transport.RecipeClient.t)
    (dc : transport.DictionaryClient.t) (maxMissing : Z) :
  (forall id, exists body,
     transport.DictionaryClient.http dc
       (String.append (transport.DictionaryClient.baseURL dc)
          (String.append "/ingredients/" (String.append id "/substitutes")))
     = transport.Response 404 body
     \/ transport.DictionaryClient.http dc
          (String.append (transport.DictionaryClient.baseURL dc)
             (String.append "/ingredients/" (String.append id "/substitutes")))
        = transport.Response 405 body) ->
  Score (service.New (transport.pantryMethods json pc) (transport.recipeMethods json rc)
           (transport.dictionaryMethods json dc)) true maxMissing
  = Score (service.New (transport.pantryMethods json pc) (transport.recipeMethods json rc)
             (transport.dictionaryMethods json dc)) false maxMissing.
Proof.
  intros Habsent. apply Score_no_substitute_answers. intros id. left.
  cbn [dictionary transport.dictionaryMethods GetSubstitutes]. unfold transport.GetSubstitutes.
  destruct (Habsent id) as [body [-> | ->]]; reflexivity.
Qed.

Lemma substitutes_endpoint_absent_is_no_subs_witness :
  Score (serviceOver sampleNet) true 1 = Score (serviceOver sampleNet) false 1.
Proof.
  apply (substitutes_endpoint_absent_is_no_subs sampleJson
           (transport.NewPantryClient sampleNet "http://pantry")
           (transport.NewRecipeClient sampleNet "http://recipes")
           (transport.NewDictionaryClient sampleNet "http://dictionary") 1).
  intros id. exists "method not allowed"%string. right. reflexivity.
Defined.




(** X19.  A pantry or recipe service that answers with a status other than
    200 surfaces as status 502 from [handleGetMatches], with a message naming
    the failed fetch and the upstream status; the recipe service's status
    shows only once the pantry has been fetched. *)
Theorem upstream_status_surfaces_as_502 (json : transport.Json)
    (pc : transport.PantryClient.t) (rc : transport.RecipeClient.t)
    (dc : transport.DictionaryClient.t) (allow_subs max_missing : string)
    (status : Z) (body : string) :
  max_missing = ""%string \/ (exists n, Atoi max_missing = Some n /\ 0 <= n) ->
  status <> 200 ->
  (transport.PantryClient.http pc (String.append (transport.PantryClient.baseURL pc) "/pantry")
   = transport.Response status body ->
   handleGetMatches
     (service.New (transport.pantryMethods json pc) (transport.recipeMethods json rc)
        (transport.dictionaryMethods json dc)) allow_subs max_missing
   = jsonError
       (String.append "scoring failed: "
          (String.append "fetch pantry: "
             (String.append "pantry service returned " (transport.Itoa status))))
       502)
  /\ (forall items,
        transport.GetPantry json pc = Fetched items ->
        transport.RecipeClient.http rc
          (String.append (transport.RecipeClient.baseURL rc) "/recipes")
        = transport.Response status body ->
        handleGetMatches
          (service.New (transport.pantryMethods json pc) (transport.recipeMethods json rc)
             (transport.dictionaryMethods json dc)) allow_subs max_missing
        = jsonError
            (String.append "scoring failed: "
               (String.append "fetch recipes: "
                  (String.append "recipe service returned " (transport.Itoa status))))
            502).
Proof.
  intros Hvalid Hstatus.
  assert (Hget : forall svc,
            handleGetMatches svc allow_subs max_missing
            = respond svc (String.eqb allow_subs "true")
                (match Atoi max_missing with
                 | Some n => if String.eqb max_missing "" then 0 else n
                 | None => 0
                 end)).
  { intros svc. unfold handleGetMatches.
    destruct Hvalid as [->|(n & Hn & Hpos)]; [reflexivity|].
    rewrite Hn. destruct (String.eqb max_missing ""); [reflexivity|].
    destruct (Z.ltb_spec n 0); [lia|reflexivity]. }
  apply Z.eqb_neq in Hstatus.
  split.
  - intros Hresp. rewrite Hget. unfold respond, Score.
    cbn [pantry transport.pantryMethods GetPantry]. unfold transport.GetPantry.
    rewrite Hresp. unfold transport.StatusOK. rewrite Hstatus. reflexivity.
  - intros items Hitems Hresp. rewrite Hget. unfold respond, Score.
    cbn [pantry recipes transport.pantryMethods transport.recipeMethods GetPantry GetRecipes].
    rewrite Hitems. unfold transport.GetRecipes.
    rewrite Hresp. unfold transport.StatusOK. rewrite Hstatus. reflexivity.
Qed.

Lemma upstream_status_surfaces_as_502_witness :
  handleGetMatches (serviceOver pantryDownNet) "true" "1"
  = jsonError "scoring failed: fetch pantry: pantry service returned 503" 502.
Proof.
  apply (upstream_status_surfaces_as_502 sampleJson
           (transport.NewPantryClient pantryDownNet "http://pantry")
           (transport.NewRecipeClient pantryDownNet "http://recipes")
           (transport.NewDictionaryClient pantryDownNet "http://dictionary")
           "true" "1" 503 "unavailable").
  - right. exists 1. split; [vm_compute; reflexivity|lia].
  - discriminate.
  - reflexivity.
Defined.

(** ** main *)

(** X20.  [main] serves exactly when [PANTRY_URL], [RECIPE_URL] and
    [DICTIONARY_URL] are all set (otherwise it exits); it then listens on
    [":" + PORT], with 8080 for an unset [PORT], and the service it serves
    fetches the pantry, the recipes and the dictionary entries from the base
    URLs of the respective variables. *)
Theorem main_serves_iff_configured (Getenv : string -> string)
    (net : string -> transport.exchange) (json : transport.Json) :
  ((exists addr svc, cmd.main Getenv net json = cmd.ListenAndServe addr svc)
   <-> Getenv "PANTRY_URL" <> ""%string /\ Getenv "RECIPE_URL" <> ""%string
       /\ Getenv "DICTIONARY_URL" <> ""%string)
  /\ forall addr svc,
       cmd.main Getenv net json = cmd.ListenAndServe addr svc ->
       addr = String.append ":" (if String.eqb (Getenv "PORT") "" then "8080"%string
                                 else Getenv "PORT")
       /\ GetPantry (pantry svc)
          = transport.GetPantry json
              {| transport.PantryClient.baseURL := Getenv "PANTRY_URL";
                 transport.PantryClient.http := net |}
       /\ GetRecipes (recipes svc)
          = transport.GetRecipes json
              {| transport.RecipeClient.baseURL := Getenv "RECIPE_URL";
                 transport.RecipeClient.http := net |}
       /\ GetIngredient (dictionary svc)
          = transport.GetIngredient json
              {| transport.DictionaryClient.baseURL := Getenv "DICTIONARY_URL";
                 transport.DictionaryClient.http := net |}
       /\ GetSubstitutes (dictionary svc)
          = transport.GetSubstitutes json
              {| transport.DictionaryClient.baseURL := Getenv "DICTIONARY_URL";
                 transport.DictionaryClient.http := net |}.
Proof.
  unfold cmd.main.
  destruct (String.eqb_spec (Getenv "PANTRY_URL") "") as [Ep|Ep].
  { split; [split|]; [intros (? & ? & ?); discriminate | tauto | discriminate]. }
  destruct (String.eqb_spec (Getenv "RECIPE_URL") "") as [Er|Er].
  { split; [split|]; [intros (? & ? & ?); discriminate | tauto | discriminate]. }
  destruct (String.eqb_spec (Getenv "DICTIONARY_URL") "") as [Ed|Ed].
  { split; [split|]; [intros (? & ? & ?); discriminate | tauto | discriminate]. }
  split; [split; [tauto | eauto]|].
  intros addr svc [= <- <-]. repeat split.
Qed.

Lemma main_serves_iff_configured_witness :
  exists svc, cmd.main sampleEnv sampleNet sampleJson = cmd.ListenAndServe ":8080" svc
              /\ GetPantry (pantry svc) = Fetched flourOnly.
Proof.
  destruct (main_serves_iff_configured sampleEnv sampleNet sampleJson) as [[_ Hserve] Hwire].
  destruct Hserve as (addr & svc & Hmain); [repeat split; discriminate|].
  destruct (Hwire addr svc Hmain) as (Haddr & Hp & _).
  exists svc. split; [rewrite Hmain, Haddr; reflexivity|]. rewrite Hp. reflexivity.
Defined.

(** ** More on ranking *)

(** X21.  On results whose coverage is a number, the comparison [Score]
    hands to [sort.Slice] is a strict weak ordering, as sorting requires: it
    is irreflexive, asymmetric and transitive, and so is being unordered by
    it. *)
Theorem lessResult_strict_weak_order (a b c : MatchResult.t) :
  numericCoverage a -> numericCoverage b -> numericCoverage c ->
  lessResult a a = false
  /\ (lessResult a b = true -> lessResult b a = false)
  /\ (lessResult a b = true -> lessResult b c = true -> lessResult a c = true)
  /\ (lessResult a b = false -> lessResult b c = false -> lessResult a c = false).
Proof.
  intros Ha Hb Hc. repeat split.
  - destruct (lessResult a a) eqn:E; [|reflexivity].
    rewrite (lessResult_asym a a Ha Ha E) in E. discriminate.
  - apply lessResult_asym; assumption.
  - intros Hab Hbc. destruct (lessResult a c) eqn:Eac; [reflexivity|].
    pose proof (lessResult_asym b c Hb Hc Hbc) as Hcb.
    pose proof (lessResult_negtrans a c b Ha Hc Hb Eac Hcb) as Hab'.
    congruence.
  - apply lessResult_negtrans; assumption.
Qed.

Lemma lessResult_strict_weak_order_witness :
  lessResult (scoreRecipe garnish ∅ ∅ 0) (scoreRecipe garnish ∅ ∅ 0) = false
  /\ (lessResult (scoreRecipe garnish ∅ ∅ 0) (scoreRecipe bread ∅ ∅ 0) = true ->
      lessResult (scoreRecipe bread ∅ ∅ 0) (scoreRecipe garnish ∅ ∅ 0) = false)
  /\ (lessResult (scoreRecipe garnish ∅ ∅ 0) (scoreRecipe bread ∅ ∅ 0) = true ->
      lessResult (scoreRecipe bread ∅ ∅ 0) (scoreRecipe doubleYeast ∅ ∅ 0) = true ->
      lessResult (scoreRecipe garnish ∅ ∅ 0) (scoreRecipe doubleYeast ∅ ∅ 0) = true)
  /\ (lessResult (scoreRecipe garnish ∅ ∅ 0) (scoreRecipe bread ∅ ∅ 0) = false ->
      lessResult (scoreRecipe bread ∅ ∅ 0) (scoreRecipe doubleYeast ∅ ∅ 0) = false ->
      lessResult (scoreRecipe garnish ∅ ∅ 0) (scoreRecipe doubleYeast ∅ ∅ 0) = false).
Proof.
  apply (lessResult_strict_weak_order (scoreRecipe garnish ∅ ∅ 0) (scoreRecipe bread ∅ ∅ 0)
           (scoreRecipe doubleYeast ∅ ∅ 0)); reflexivity.
Defined.

Lemma filter_length_Permutation {A : Type} (f : A -> bool) (l l' : list A) :
  Permutation l l' -> len (List.filter f l) = len (List.filter f l').
Proof.
  intros H. unfold len. f_equal. apply Permutation_length, filter_Permutation_bool, H.
Qed.

(** X22.  The order in which a recipe lists its required ingredients, and
    its optional ingredients altogether, do not matter to the score: two
    recipes whose required ingredients are a permutation of one another get
    the same coverage and the same [CanMake], and missing lists that are a
    permutation of one another. *)
Theorem score_of_permuted_requirements (recipe recipe' : Recipe.t)
    (pantrySet : gmap string bool) (subsMap : gmap string (list IngredientSubstitute.t))
    (maxMissing : Z) :
  Permutation (required recipe) (required recipe') ->
  MatchResult.CoveragePct (scoreRecipe recipe' pantrySet subsMap maxMissing)
    = MatchResult.CoveragePct (scoreRecipe recipe pantrySet subsMap maxMissing)
  /\ MatchResult.CanMake (scoreRecipe recipe' pantrySet subsMap maxMissing)
     = MatchResult.CanMake (scoreRecipe recipe pantrySet subsMap maxMissing)
  /\ Permutation (MatchResult.MissingIngredients (scoreRecipe recipe' pantrySet subsMap maxMissing))
       (MatchResult.MissingIngredients (scoreRecipe recipe pantrySet subsMap maxMissing)).
Proof.
  intros Hperm.
  assert (Htotal : totalRequiredCount recipe' = totalRequiredCount recipe).
  { unfold totalRequiredCount, len. f_equal. symmetry. apply Permutation_length, Hperm. }
  assert (Hmissing : Permutation
            (MatchResult.MissingIngredients (scoreRecipe recipe' pantrySet subsMap maxMissing))
            (MatchResult.MissingIngredients (scoreRecipe recipe pantrySet subsMap maxMissing))).
  { rewrite !scoreRecipe_missing. apply Permutation_map, filter_Permutation_bool.
    symmetry. exact Hperm. }
  split; [|split; [|exact Hmissing]].
  - rewrite !scoreRecipe_coverage, Htotal. unfold matchedRequiredCount.
    rewrite (filter_length_Permutation _ _ _ Hperm). reflexivity.
  - rewrite !scoreRecipe_canMake, Htotal. unfold len.
    rewrite (Permutation_length Hmissing). reflexivity.
Qed.

Lemma score_of_permuted_requirements_witness :
  MatchResult.CoveragePct
    (scoreRecipe
       (sampleRecipe "bread, reordered"
          [sampleIng "yeast" 0.5%float false; sampleIng "basil" 1%float true;
           sampleIng "water" 1%float false; sampleIng "flour" 3%float false])
       (pantrySetOf flourOnly) ∅ 2)
  = MatchResult.CoveragePct (scoreRecipe bread (pantrySetOf flourOnly) ∅ 2)
  /\ MatchResult.CanMake
       (scoreRecipe
          (sampleRecipe "bread, reordered"
             [sampleIng "yeast" 0.5%float false; sampleIng "basil" 1%float true;
              sampleIng "water" 1%float false; sampleIng "flour" 3%float false])
          (pantrySetOf flourOnly) ∅ 2)
     = MatchResult.CanMake (scoreRecipe bread (pantrySetOf flourOnly) ∅ 2)
  /\ Permutation
       (MatchResult.MissingIngredients
          (scoreRecipe
             (sampleRecipe "bread, reordered"
                [sampleIng "yeast" 0.5%float false; sampleIng "basil" 1%float true;
                 sampleIng "water" 1%float false; sampleIng "flour" 3%float false])
             (pantrySetOf flourOnly) ∅ 2))
       (MatchResult.MissingIngredients (scoreRecipe bread (pantrySetOf flourOnly) ∅ 2)).
Proof.
  apply (score_of_permuted_requirements bread
           (sampleRecipe "bread, reordered"
              [sampleIng "yeast" 0.5%float false; sampleIng "basil" 1%float true;
               sampleIng "water" 1%float false; sampleIng "flour" 3%float false])
           (pantrySetOf flourOnly) ∅ 2).
  cbn. 
  apply (perm_trans (l' := [sampleIng "yeast" 0.5%float false; sampleIng "flour" 3%float false;
                            sampleIng "water" 1%float false])).
  - apply (perm_trans (l' := [sampleIng "flour" 3%float false; sampleIng "yeast" 0.5%float false;
                              sampleIng "water" 1%float false])).
    + apply perm_skip, perm_swap.
    + apply perm_swap.
  - apply perm_skip, perm_swap.
Defined.



